(** * The book controller of the local-library catalog

    A shallow embedding of [src/controllers/bookController.js]: the request
    handlers for listing, viewing, creating, updating and deleting books,
    together with the pieces of their collaborators that the handlers call
    (the validator chain, the document store, the response object). *)

From Stdlib Require Import String Ascii NArith Lia.
From stdpp Require Import base option list gmap strings sorting.

Local Open Scope string_scope.
Local Open Scope list_scope.
Local Open Scope stdpp_scope.

(** Reverse application, used to write the method chains of the source
    ([body("title", m).trim().isLength({ min: 1 }).escape()]) in their
    original order. *)
Notation "x |> f" := (f x) (at level 45, left associativity, only parsing).

(** ** validator.js: the string functions behind the chain

    A JavaScript string is modelled as a [string] of code units below 256. *)
Module validator.

(** The class [\s] of a JavaScript regular expression, on code units below
    256: tab, line feed, vertical tab, form feed, carriage return, space and
    the no-break space. *)
Definition is_whitespace (c : ascii) : bool :=
  let n := nat_of_ascii c in
  ((9 <=? n)%nat && (n <=? 13)%nat) || (n =? 32)%nat || (n =? 160)%nat.

(** [str.replace(/^\s+/g, '')] *)
Fixpoint ltrim (str : string) : string :=
  match str with
  | EmptyString => EmptyString
  | String c rest => if is_whitespace c then ltrim rest else str
  end.

(** The loop of [rtrim]: the index moves left over trailing white space and
    the string is cut after it. *)
Fixpoint rtrim (str : string) : string :=
  match str with
  | EmptyString => EmptyString
  | String c rest =>
      match rtrim rest with
      | EmptyString => if is_whitespace c then EmptyString else String c EmptyString
      | kept => String c kept
      end
  end.

Definition trim (str : string) : string := rtrim (ltrim str).

(** [isLength(str, { min })]: no upper bound is given in the source. *)
Record LengthOptions := { min : nat }.

Definition isLength (options : LengthOptions) (str : string) : bool :=
  (min options <=? String.length str)%nat.

(** The replacement of one code unit by [escape]. *)
Definition escape_char (c : ascii) : string :=
  match nat_of_ascii c with
  | 38 => "&amp;"
  | 34 => "&quot;"
  | 39 => "&#x27;"
  | 60 => "&lt;"
  | 62 => "&gt;"
  | 47 => "&#x2F;"
  | 92 => "&#x5C;"
  | 96 => "&#96;"
  | _ => String c EmptyString
  end.

(** [escape]: the chain of [replace] calls starts with [&], and no later
    replacement produces a character an earlier one consumes, so the chain
    acts on each code unit on its own. *)
Fixpoint escape (str : string) : string :=
  match str with
  | EmptyString => EmptyString
  | String c rest => escape_char c +:+ escape rest
  end.

End validator.

(** ** express-validator: chains over request body fields *)

(** One entry of [errors.array()]. *)
Record ValidationError := {
  msg : string;
  path : string;
  value : string;
  location : string;
}.

(** The request as the handlers read it: the route parameter [id], the body
    fields, and the validation errors the chains have attached so far. *)
Record Request := {
  params_id : string;
  body_fields : gmap string string;
  validation_errors : list ValidationError;
}.

(** [req.body[name]]; a field the form did not send reads as the empty
    string, which is what the sanitizers make of it. *)
Definition req_body (req : Request) (name : string) : string :=
  default "" (body_fields req !! name).

Inductive ChainStep :=
  | Sanitizer (f : string → string)
  | Validator (p : string → bool).

Record ValidationChain := {
  chain_field : string;
  chain_message : string;
  chain_steps : list ChainStep;
}.

(** [body(field, message)] *)
Definition body (field message : string) : ValidationChain :=
  {| chain_field := field; chain_message := message; chain_steps := [] |}.

Definition add_step (s : ChainStep) (c : ValidationChain) : ValidationChain :=
  {| chain_field := chain_field c; chain_message := chain_message c;
     chain_steps := chain_steps c ++ [s] |}.

Definition trim : ValidationChain → ValidationChain :=
  add_step (Sanitizer validator.trim).
Definition isLength (options : validator.LengthOptions) : ValidationChain → ValidationChain :=
  add_step (Validator (validator.isLength options)).
Definition escape : ValidationChain → ValidationChain :=
  add_step (Sanitizer validator.escape).

(** Running one step on the current value of the field: a sanitizer writes
    its result back into the body, a failing validator attaches an error with
    the chain's message and the value it saw; the chain goes on either way
    (there is no [bail] in the source). *)
Definition run_step (field message : string) (req : Request) (s : ChainStep) : Request :=
  match s with
  | Sanitizer f =>
      {| params_id := params_id req;
         body_fields := <[field := f (req_body req field)]> (body_fields req);
         validation_errors := validation_errors req |}
  | Validator p =>
      if p (req_body req field) then req
      else
        {| params_id := params_id req;
           body_fields := body_fields req;
           validation_errors :=
             validation_errors req ++
               [{| msg := message; path := field;
                   value := req_body req field; location := "body" |}] |}
  end.

Definition run_chain (c : ValidationChain) (req : Request) : Request :=
  foldl (run_step (chain_field c) (chain_message c)) req (chain_steps c).

(** [validationResult(req)], read through [isEmpty()] and [array()]. *)
Definition validationResult (req : Request) : list ValidationError :=
  validation_errors req.

Definition isEmpty (errors : list ValidationError) : bool :=
  match errors with [] => true | _ => false end.

(** ** models/author.js and models/book.js: the documents *)

Module AuthorSchema.

(** Modelled from the spec: models/author.js is not among the sources. An
    Author has an identifier, a family name that orders the list of a form,
    and other fields this controller never reads. *)
Record t := {
  _id : string;
  family_name : string;
  other_fields : string;
}.

End AuthorSchema.

Module BookSchema.

(** Modelled from the spec: models/book.js is not among the sources. A Book
    has an identifier (an opaque key), a title, an author (the identifier of
    an Author) and a summary. The record is
    parametric in the author (a reference, or the Author a reference was
    resolved to, [None] standing for [null]) and in the summary (a string, or
    [unit] where a projection left the summary out). *)
Record t (A S : Type) := {
  _id : string;
  title : string;
  author : A;
  summary : S;
}.
Arguments _id {A S} _.
Arguments title {A S} _.
Arguments author {A S} _.
Arguments summary {A S} _.

(** Modelled from the spec: the virtual [url] of models/book.js, the
    canonical path of a book built from its identifier. *)
Definition url {A S} (book : t A S) : string := "/catalog/book/" +:+ _id book.

End BookSchema.

(** A stored Book: the author is a reference (an Author identifier). *)
Abbreviation StoredBook := (BookSchema.t string string).
(** A Book read with its author resolved. *)
Abbreviation PopulatedBook := (BookSchema.t (option AuthorSchema.t) string).
(** A Book read through the projection ["title author"], author resolved. *)
Abbreviation ListedBook := (BookSchema.t (option AuthorSchema.t) unit).

(** The two collections of the document store, keyed by identifier. *)
Record DB := {
  Books : gmap string StoredBook;
  Authors : gmap string AuthorSchema.t;
}.

(** ** The response object, [next], and the handler monad *)

(** [new Error(message)], with the [status] a handler may set on it. *)
Record Error := {
  message : string;
  status : option nat;
}.

(** The value passed as [book] to a view. *)
Inductive BookValue :=
  | Null
  | Populated (book : PopulatedBook)
  | Candidate (book : StoredBook).

(** The object handed to [res.render]; an absent key is [None]. *)
Module View.
Record Locals := {
  title : string;
  book_list : option (list ListedBook);
  authors : option (list AuthorSchema.t);
  book : option BookValue;
  errors : option (list ValidationError);
}.
End View.

(** What a handler does to answer: the calls it makes on [res] and [next]. *)
Inductive Call :=
  | Render (view : string) (locals : View.Locals)
  | Redirect (target : string)
  | Next (err : Error).

(** The state a handler runs in: the store, the calls made so far, and the
    source of identifiers for new documents ([ObjectId n] is the [n]-th
    identifier the driver hands out, [minted] counts those handed out). *)
Record State := {
  db : DB;
  calls : list Call;
  ObjectId : nat → string;
  minted : nat;
}.

(** An asynchronous function body: it runs on the state and either returns
    or throws (a rejected promise), keeping the effects made until then. *)
Definition M (A : Type) : Type := State → (Error + A) * State.

#[global] Instance M_ret : MRet M := λ A a st, (inr a, st).
#[global] Instance M_bind : MBind M := λ A B f m st,
  match m st with
  | (inl err, st') => (inl err, st')
  | (inr a, st') => f a st'
  end.

Definition throw {A} (err : Error) : M A := λ st, (inl err, st).

Definition record_call (c : Call) : M unit := λ st,
  (inr (), {| db := db st; calls := calls st ++ [c];
              ObjectId := ObjectId st; minted := minted st |}).

Module res.
Definition render (view : string) (locals : View.Locals) : M unit :=
  record_call (Render view locals).
Definition redirect (target : string) : M unit :=
  record_call (Redirect target).
End res.

Definition next (err : Error) : M unit := record_call (Next err).

(** A query: a read of the store, run by [exec] (or by awaiting it). *)
Definition Query (A : Type) : Type := DB → A.

Definition exec {A} (q : Query A) : M A := λ st, (inr (q (db st)), st).

Definition set_db (f : DB → DB) : M unit := λ st,
  (inr (), {| db := f (db st); calls := calls st;
              ObjectId := ObjectId st; minted := minted st |}).

(** ** The Mongoose models *)

Module Author.

Definition family_name_le (a1 a2 : AuthorSchema.t) : Prop :=
  String.le (AuthorSchema.family_name a1) (AuthorSchema.family_name a2).

#[global] Instance family_name_le_dec : RelDecision family_name_le.
Proof. intros a1 a2. unfold family_name_le. apply _. Defined.

(** [Author.find()] *)
Definition find : Query (list AuthorSchema.t) := λ db,
  (map_to_list (Authors db)).*2.

(** [.sort({ family_name: 1 })] *)
Definition sort (q : Query (list AuthorSchema.t)) : Query (list AuthorSchema.t) := λ db,
  merge_sort family_name_le (q db).

End Author.

Module Book.

Definition title_le {A S} (b1 b2 : BookSchema.t A S) : Prop :=
  String.le (BookSchema.title b1) (BookSchema.title b2).

#[global] Instance title_le_dec {A S} : RelDecision (@title_le A S).
Proof. intros b1 b2. unfold title_le. apply _. Defined.

(** The projection ["title author"]: the identifier, the title and the
    author are kept, the summary is left out. *)
Definition project (book : StoredBook) : BookSchema.t string unit :=
  {| BookSchema._id := BookSchema._id book;
     BookSchema.title := BookSchema.title book;
     BookSchema.author := BookSchema.author book;
     BookSchema.summary := () |}.

(** [Book.find({}, "title author")] *)
Definition find : Query (list (BookSchema.t string unit)) := λ db,
  project <$> (map_to_list (Books db)).*2.

(** [.sort({ title: 1 })]: ascending, titles compared code unit by code
    unit. *)
Definition sort {A S} (q : Query (list (BookSchema.t A S))) : Query (list (BookSchema.t A S)) := λ db,
  merge_sort title_le (q db).

(** Resolving the author reference of one document against the Author
    collection; a reference to no stored Author resolves to [null]. *)
Definition populate_doc {S} (db : DB) (book : BookSchema.t string S)
  : BookSchema.t (option AuthorSchema.t) S :=
  {| BookSchema._id := BookSchema._id book;
     BookSchema.title := BookSchema.title book;
     BookSchema.author := Authors db !! BookSchema.author book;
     BookSchema.summary := BookSchema.summary book |}.

(** [.populate("author")], on the documents of a [find] (a list) or the
    result of a [findById] (a document or [null]). *)
Definition populate {F} `{FMap F} {S} (q : Query (F (BookSchema.t string S)))
  : Query (F (BookSchema.t (option AuthorSchema.t) S)) := λ db,
  populate_doc db <$> q db.

(** [Book.findById(id)] *)
Definition findById (id : string) : Query (option StoredBook) := λ db,
  Books db !! id.

(** [new Book({ title, author, summary })]: the constructor gives the
    document the next identifier of the driver. *)
Definition new (title author summary : string) : M StoredBook := λ st,
  (inr {| BookSchema._id := ObjectId st (minted st);
          BookSchema.title := title;
          BookSchema.author := author;
          BookSchema.summary := summary |},
   {| db := db st; calls := calls st;
      ObjectId := ObjectId st; minted := S (minted st) |}).

(** [new Book({ title, author, summary, _id })]: the identifier is the
    given one and none is taken from the driver. *)
Definition new_with_id (title author summary _id : string) : M StoredBook :=
  mret {| BookSchema._id := _id;
          BookSchema.title := title;
          BookSchema.author := author;
          BookSchema.summary := summary |}.

Definition duplicate_key : Error :=
  {| message := "E11000 duplicate key error"; status := None |}.

Definition immutable_id : Error :=
  {| message := "Performing an update on the path '_id' would modify the immutable field '_id'";
     status := None |}.

(** [book.save()] on a new document: an insert under the document's
    identifier, refused when that identifier is taken. *)
Definition save (book : StoredBook) : M unit :=
  taken ← exec (findById (BookSchema._id book));
  match taken with
  | Some _ => throw duplicate_key
  | None =>
      set_db (λ d, {| Books := <[BookSchema._id book := book]> (Books d);
                      Authors := Authors d |})
  end.

(** [Book.findByIdAndUpdate(id, update, {})]: the fields of [update] are
    set on the document stored under [id]; with no such document nothing is
    written (the options do not ask for an upsert), and the identifier of a
    document cannot be changed. The result is the document found. *)
Definition findByIdAndUpdate (id : string) (update : StoredBook) : M (option StoredBook) :=
  found ← exec (findById id);
  match found with
  | None => mret None
  | Some _ =>
      if decide (BookSchema._id update = id) then
        set_db (λ d, {| Books := <[id := update]> (Books d);
                        Authors := Authors d |}) ;;
        mret found
      else throw immutable_id
  end.

(** [Book.findByIdAndDelete(id)]: the document stored under [id], if any,
    is removed and returned. *)
Definition findByIdAndDelete (id : string) : M (option StoredBook) :=
  found ← exec (findById id);
  set_db (λ d, {| Books := delete id (Books d); Authors := Authors d |}) ;;
  mret found.

End Book.

(** ** express: middleware, express-async-handler, dispatch *)

(** A middleware reads and may change the request, and acts on the state;
    the one after it in the stack of a route runs next. *)
Definition Middleware : Type := Request → State → Request * State.

(** A validation chain mounted as a middleware: it runs on the request and
    hands over. *)
Definition chain_middleware (c : ValidationChain) : Middleware := λ req st,
  (run_chain c req, st).

(** [asyncHandler(fn)]: an error thrown by [fn] is passed to [next]. *)
Definition asyncHandler (fn : Request → M unit) : Middleware := λ req st,
  match fn req st with
  | (inl err, st') => (req, (next err st').2)
  | (inr _, st') => (req, st')
  end.

(** A route runs its stack in order: a validation chain always hands over,
    and the handler of a submission is the last entry of its stack. *)
Definition dispatch (stack : list Middleware) (req : Request) (st : State) : Request * State :=
  foldl (λ rs m, m rs.1 rs.2) (req, st) stack.

(** [new Error(message)] and the assignment [err.status = code]. *)
Definition new_Error (message : string) : Error :=
  {| message := message; status := None |}.
Definition set_status (code : nat) (err : Error) : Error :=
  {| message := message err; status := Some code |}.

(** The value of a variable holding a populated document or [null]. *)
Definition nullable (book : option PopulatedBook) : BookValue :=
  from_option Populated Null book.

(** ** controllers/bookController.js *)

(** Display list of all books. *)
Definition book_list : Middleware := asyncHandler (λ req,
  allBooks ← Book.find |> Book.sort |> Book.populate |> exec;
  res.render "book_list"
    {| View.title := "Book List"; View.book_list := Some allBooks;
       View.authors := None; View.book := None; View.errors := None |}).

(** Display detail page for a specific book. *)
Definition book_detail : Middleware := asyncHandler (λ req,
  (* Promise.all of the one read *)
  book ← Book.findById (params_id req) |> Book.populate |> exec;
  match book with
  | None =>
      (* No results. *)
      let err := new_Error "Book not found" in
      let err := set_status 404 err in
      next err
  | Some book =>
      res.render "book_detail"
        {| View.title := BookSchema.title book; View.book := Some (Populated book);
           View.book_list := None; View.authors := None; View.errors := None |}
  end).

(** Display book create form on GET. *)
Definition book_create_get : Middleware := asyncHandler (λ req,
  allAuthors ← Author.find |> Author.sort |> exec;
  res.render "book_form"
    {| View.title := "Create Book"; View.authors := Some allAuthors;
       View.book_list := None; View.book := None; View.errors := None |}).

(** Handle book create on POST. *)
Definition book_create_post : list Middleware := [
  (* Validate and sanitize fields. *)
  chain_middleware
    (body "title" "Title must not be empty."
       |> trim |> isLength {| validator.min := 1 |} |> escape);
  chain_middleware
    (body "author" "Author must not be empty."
       |> trim |> isLength {| validator.min := 1 |} |> escape);
  chain_middleware
    (body "summary" "Summary must not be empty."
       |> trim |> isLength {| validator.min := 1 |} |> escape);
  (* Process request after validation and sanitization. *)
  asyncHandler (λ req,
    let errors := validationResult req in
    book ← Book.new (req_body req "title") (req_body req "author")
                    (req_body req "summary");
    if negb (isEmpty errors) then
      allAuthors ← Author.find |> Author.sort |> exec;
      res.render "book_form"
        {| View.title := "Create Book"; View.authors := Some allAuthors;
           View.book := Some (Candidate book); View.errors := Some errors;
           View.book_list := None |}
    else
      (* Data from form is valid. Save book. *)
      Book.save book ;;
      res.redirect (BookSchema.url book))
].

(** Display book delete form on GET. *)
Definition book_delete_get : Middleware := asyncHandler (λ req,
  book ← Book.findById (params_id req) |> Book.populate |> exec;
  match book with
  | None => res.redirect "/catalog/books"
  | Some _ => mret ()
  end ;;
  res.render "book_delete"
    {| View.title := "Delete Book"; View.book := Some (nullable book);
       View.book_list := None; View.authors := None; View.errors := None |}).

(** Handle book delete on POST. *)
Definition book_delete_post : Middleware := asyncHandler (λ req,
  book ← Book.findById (params_id req) |> Book.populate |> exec;
  match book with
  | None => res.redirect "/catalog/books"
  | Some _ => mret ()
  end ;;
  Book.findByIdAndDelete (req_body req "id") ;;
  res.redirect "/catalog/books").

(** Display book update form on GET. *)
Definition book_update_get : Middleware := asyncHandler (λ req,
  (* Promise.all of two reads *)
  book ← Book.findById (params_id req) |> Book.populate |> exec;
  allAuthors ← Author.find |> Author.sort |> exec;
  match book with
  | None =>
      let err := new_Error "Book not found" in
      let err := set_status 404 err in
      next err
  | Some book =>
      res.render "book_form"
        {| View.title := "Update Book"; View.authors := Some allAuthors;
           View.book := Some (Populated book);
           View.book_list := None; View.errors := None |}
  end).

(** Handle book update on POST. *)
Definition book_update_post : list Middleware := [
  chain_middleware
    (body "title" "Title must not be empty."
       |> trim |> isLength {| validator.min := 1 |} |> escape);
  chain_middleware
    (body "author" "Author must not be empty."
       |> trim |> isLength {| validator.min := 1 |} |> escape);
  chain_middleware
    (body "summary" "Summary must not be empty."
       |> trim |> isLength {| validator.min := 1 |} |> escape);
  asyncHandler (λ req,
    let errors := validationResult req in
    book ← Book.new_with_id (req_body req "title") (req_body req "author")
                            (req_body req "summary") (params_id req);
    if negb (isEmpty errors) then
      allAuthors ← Author.find |> Author.sort |> exec;
      res.render "book_form"
        {| View.title := "Update Book"; View.authors := Some allAuthors;
           View.book := Some (Candidate book); View.errors := Some errors;
           View.book_list := None |}
    else
      (* Data from form is valid. Update the record. *)
      Book.findByIdAndUpdate (params_id req) book ;;
      res.redirect (BookSchema.url book))
].

(** The home page. *)
Definition index : Middleware := asyncHandler (λ req,
  allBooks ← Book.find |> Book.sort |> Book.populate |> exec;
  res.render "index"
    {| View.title := "Home"; View.book_list := Some allBooks;
       View.authors := None; View.book := None; View.errors := None |}).

(** ** Sample data *)

Definition austen : AuthorSchema.t :=
  {| AuthorSchema._id := "A1"; AuthorSchema.family_name := "Austen";
     AuthorSchema.other_fields := "Jane" |}.

Definition emma : StoredBook :=
  {| BookSchema._id := "B1"; BookSchema.title := "Emma";
     BookSchema.author := "A1"; BookSchema.summary := "A novel." |}.

Definition persuasion : StoredBook :=
  {| BookSchema._id := "B2"; BookSchema.title := "Persuasion";
     BookSchema.author := "A1"; BookSchema.summary := "Another novel." |}.

Definition sample_db : DB :=
  {| Books := <["B2" := persuasion]> (<["B1" := emma]> ∅);
     Authors := <["A1" := austen]> ∅ |}.

Definition sample_oid (n : nat) : string :=
  "oid" +:+ String (ascii_of_nat (48 + n)) EmptyString.

Definition initial (d : DB) : State :=
  {| db := d; calls := []; ObjectId := sample_oid; minted := 0 |}.

(** The body of a submitted book form. *)
Definition filled (title author summary : string) : gmap string string :=
  <["title" := title]> (<["author" := author]> (<["summary" := summary]> ∅)).

(** ** What a submission asks for

    The notions the statements below are phrased in, written from the
    wording of the specification rather than read off the handlers. *)

(** A request as it arrives: no validation error is attached yet. *)
Definition incoming (id : string) (fields : gmap string string) : Request :=
  {| params_id := id; body_fields := fields; validation_errors := [] |}.

(** The submitted value of a field. *)
Definition submitted (fields : gmap string string) (name : string) : string :=
  default "" (fields !! name).

(** A field is violated when it is empty or white space only, that is when
    nothing is left of it after trimming. *)
Definition blank (fields : gmap string string) (name : string) : Prop :=
  validator.trim (submitted fields name) = "".

#[global] Instance blank_dec fields name : Decision (blank fields name).
Proof. unfold blank. apply _. Defined.

(** The value of a field after trimming and HTML-escaping. *)
Definition cleaned (fields : gmap string string) (name : string) : string :=
  validator.escape (validator.trim (submitted fields name)).

(** The required fields with their messages, in the order of the form. *)
Definition required : list (string * string) := [
  ("title", "Title must not be empty.");
  ("author", "Author must not be empty.");
  ("summary", "Summary must not be empty.")
].

(** One error per violated field. *)
Definition expected_errors (fields : gmap string string) : list ValidationError :=
  (λ fm, {| msg := fm.2; path := fm.1; value := ""; location := "body" |})
    <$> filter (λ fm, blank fields fm.1) required.

(** The Book a submission describes, under a given identifier. *)
Definition described (id : string) (fields : gmap string string) : StoredBook :=
  {| BookSchema._id := id;
     BookSchema.title := cleaned fields "title";
     BookSchema.author := cleaned fields "author";
     BookSchema.summary := cleaned fields "summary" |}.

(** All stored Authors. *)
Definition all_authors (d : DB) : list AuthorSchema.t := (map_to_list (Authors d)).*2.

(** All stored Books. *)
Definition all_books (d : DB) : list StoredBook := (map_to_list (Books d)).*2.

(** The book list of the catalog. *)
Definition catalog_books : string := "/catalog/books".

(** The request the final handler of a submission sees. *)
Definition validated (id : string) (fields : gmap string string) : Request :=
  {| params_id := id;
     body_fields :=
       <["summary" := cleaned fields "summary"]>
         (<["author" := cleaned fields "author"]>
            (<["title" := cleaned fields "title"]> fields));
     validation_errors := expected_errors fields |}.

(** The form a submission is answered with when it is refused. *)
Definition form_again (title : string) (allAuthors : list AuthorSchema.t)
    (candidate : StoredBook) (fields : gmap string string) : Call :=
  Render "book_form"
    {| View.title := title;
       View.authors := Some allAuthors;
       View.book := Some (Candidate candidate);
       View.errors := Some (expected_errors fields);
       View.book_list := None |}.

Definition not_found : Error :=
  {| message := "Book not found"; status := Some 404 |}.

(** The view a delete form is rendered with. *)
Definition delete_view (book : BookValue) : Call :=
  Render "book_delete"
    {| View.title := "Delete Book"; View.book := Some book;
       View.book_list := None; View.authors := None; View.errors := None |}.

(** The map on the stack of sorted runs a merge sort works on. *)
Definition stack_fmap {A B} (f : A → B) (st : list (option (list A)))
  : list (option (list B)) :=
  (λ run : option (list A), (λ l : list A, f <$> l) <$> run) <$> st.

(** A stored Book as a list shows it: the identifier, the title, and the
    author looked up in the Author collection, which gives the Author stored
    under the reference, or nothing ([null]) when none is. *)
Definition shown (d : DB) (book : StoredBook) : ListedBook :=
  {| BookSchema._id := BookSchema._id book;
     BookSchema.title := BookSchema.title book;
     BookSchema.author := Authors d !! BookSchema.author book;
     BookSchema.summary := () |}.

(** The retrieval of a book list in the words of the specification: all
    Books, projected with their authors resolved, in ascending order of
    title. *)
Definition retrieve_book_list (d : DB) : list ListedBook :=
  merge_sort Book.title_le (shown d <$> all_books d).

(** The view model of a list of books. *)
Definition listing (title : string) (books : list ListedBook) : View.Locals :=
  {| View.title := title; View.book_list := Some books;
     View.authors := None; View.book := None; View.errors := None |}.

(** The empty store, and the store after one Book was created in it through
    the create form, with a well-formed author reference under which no
    Author is stored. *)
Definition empty_db : DB := {| Books := ∅; Authors := ∅ |}.

Definition orphan_state : State :=
  (dispatch book_create_post
     (incoming "" (filled "Emma" "0123456789abcdef01234567" "A novel."))
     (initial empty_db)).2.

(** Unfolding the handler monad down to the state it computes. *)
Ltac run_handler :=
  unfold asyncHandler; cbv beta;
  unfold Book.save, Book.findByIdAndUpdate, Book.findByIdAndDelete,
    Book.new, Book.new_with_id, Book.populate, Book.findById,
    res.render, res.redirect, next, record_call, exec, throw, set_db,
    mbind, M_bind, mret, M_ret;
  cbn [fst snd db calls ObjectId minted negb Books Authors fmap option_fmap option_map].

(** ** The routes and what is kept true of the store *)

(** The handlers the module exports. *)
Inductive Export :=
  | Book_list
  | Book_detail
  | Book_create_get
  | Book_create_post
  | Book_delete_get
  | Book_delete_post
  | Book_update_get
  | Book_update_post
  | Index.

#[global] Instance Export_eq_dec : EqDecision Export.
Proof. solve_decision. Defined.

(** The stack a route mounts for an export: the array of a submission, or
    the one handler. *)
Definition stack_of (e : Export) : list Middleware :=
  match e with
  | Book_list => [book_list]
  | Book_detail => [book_detail]
  | Book_create_get => [book_create_get]
  | Book_create_post => book_create_post
  | Book_delete_get => [book_delete_get]
  | Book_delete_post => [book_delete_post]
  | Book_update_get => [book_update_get]
  | Book_update_post => book_update_post
  | Index => [index]
  end.

(** The state after a request with path identifier [id] and body [fields]
    was served by an export. *)
Definition serve (e : Export) (id : string) (fields : gmap string string)
    (st : State) : State :=
  (dispatch (stack_of e) (incoming id fields) st).2.

(** Every Book is stored under its own identifier. *)
Definition keyed_by_id (d : DB) : Prop :=
  map_Forall (λ key (book : StoredBook), BookSchema._id book = key) (Books d).

(** A predicate holds of every code unit of a string. *)
Fixpoint string_forall (p : ascii → bool) (str : string) : bool :=
  match str with
  | EmptyString => true
  | String c rest => p c && string_forall p rest
  end.

(** The code units [escape] replaces: the ampersand, the two quotes, the
    angle brackets, the slash, the backslash and the backtick. *)
Definition escaped_char (c : ascii) : bool :=
  bool_decide (nat_of_ascii c ∈ [38; 34; 39; 60; 62; 47; 92; 96]).

(** The same without the ampersand, which the replacements themselves
    start with. *)
Definition markup_char (c : ascii) : bool :=
  bool_decide (nat_of_ascii c ∈ [34; 39; 60; 62; 47; 92; 96]).

(** A string [escape] has nothing to do on. *)
Definition plain (str : string) : Prop :=
  string_forall (λ c, negb (escaped_char c)) str = true.

(** A string free of quotes, angle brackets, slashes and backticks. *)
Definition markup_free (str : string) : Prop :=
  string_forall (λ c, negb (markup_char c)) str = true.

(** A value as a submission stores it: not empty, with no white space at
    either end, and free of markup. *)
Definition sanitized (str : string) : Prop :=
  str ≠ "" ∧ validator.trim str = str ∧ markup_free str.

Definition sanitized_book (book : StoredBook) : Prop :=
  sanitized (BookSchema.title book) ∧
  sanitized (BookSchema.author book) ∧
  sanitized (BookSchema.summary book).

#[global] Instance sanitized_book_dec book : Decision (sanitized_book book).
Proof. unfold sanitized_book, sanitized, markup_free. apply _. Defined.

(** Every stored Book has a sanitized title, author and summary. *)
Definition all_sanitized (d : DB) : Prop :=
  map_Forall (λ _ (book : StoredBook), sanitized_book book) (Books d).


(** A submission the validation chains let through. *)
Definition acceptable (fields : gmap string string) : Prop :=
  ¬ blank fields "title" ∧ ¬ blank fields "author" ∧ ¬ blank fields "summary".

(** The body a form sends when the values it shows for a Book are
    submitted unchanged. *)
Definition resubmitted (book : StoredBook) : gmap string string :=
  filled (BookSchema.title book) (BookSchema.author book) (BookSchema.summary book).

(** A stored Book with its author resolved, as a detail page gets it. *)
Definition resolved (d : DB) (book : StoredBook) : PopulatedBook :=
  {| BookSchema._id := BookSchema._id book;
     BookSchema.title := BookSchema.title book;
     BookSchema.author := Authors d !! BookSchema.author book;
     BookSchema.summary := BookSchema.summary book |}.

(** A state whose next identifier is already taken. *)
Definition taken_state : State :=
  {| db := sample_db; calls := []; ObjectId := λ _, "B1"; minted := 0 |}.

(** ** Properties of the validator functions *)

Lemma isLength_min_1 (str : string) :
  validator.isLength {| validator.min := 1 |} str = false ↔ str = "".
Proof.
  unfold validator.isLength; simpl. destruct str as [|c rest]; simpl.
  - split; [reflexivity | intros _].
    reflexivity.
  - split; intros H; discriminate H.
Qed.




Lemma ltrim_head (str : string) c rest :
  validator.ltrim str = String c rest → validator.is_whitespace c = false.
Proof.
  induction str as [|c' rest' IH]; simpl; [discriminate |].
  destruct (validator.is_whitespace c') eqn:Hc; [exact IH |].
  intros [= -> _]. exact Hc.
Qed.


(** ** What the validation chains make of a request *)

Lemma req_body_insert_eq id fields errs name v :
  req_body {| params_id := id;
              body_fields := <[name := v]> fields;
              validation_errors := errs |} name = v.
Proof. unfold req_body; simpl. by rewrite lookup_insert_eq. Qed.

(** A chain [body(name, message).trim().isLength({ min: 1 }).escape()]
    leaves the field trimmed and escaped, and attaches its message when
    nothing is left after trimming. *)
Lemma run_required_chain name message req :
  run_chain (body name message |> trim |> isLength {| validator.min := 1 |} |> escape) req =
  {| params_id := params_id req;
     body_fields :=
       <[name := validator.escape (validator.trim (req_body req name))]> (body_fields req);
     validation_errors :=
       validation_errors req ++
         (if decide (validator.trim (req_body req name) = "")
          then [{| msg := message; path := name; value := ""; location := "body" |}]
          else []) |}.
Proof.
  unfold run_chain, body, trim, isLength, escape, add_step; simpl.
  rewrite req_body_insert_eq.
  destruct (validator.isLength _ _) eqn:Hlen.
  - case_decide as Hblank.
    + apply isLength_min_1 in Hblank. congruence.
    + simpl. rewrite req_body_insert_eq, insert_insert_eq, app_nil_r. reflexivity.
  - apply isLength_min_1 in Hlen. rewrite decide_True by done.
    simpl. rewrite req_body_insert_eq, insert_insert_eq, Hlen. reflexivity.
Qed.

Lemma dispatch_validation (handler : Middleware) id fields st :
  dispatch [
    chain_middleware
      (body "title" "Title must not be empty."
         |> trim |> isLength {| validator.min := 1 |} |> escape);
    chain_middleware
      (body "author" "Author must not be empty."
         |> trim |> isLength {| validator.min := 1 |} |> escape);
    chain_middleware
      (body "summary" "Summary must not be empty."
         |> trim |> isLength {| validator.min := 1 |} |> escape);
    handler ] (incoming id fields) st
  = handler (validated id fields) st.
Proof.
  unfold dispatch, chain_middleware; cbn [foldl fst snd].
  rewrite !run_required_chain.
  f_equal. unfold validated, cleaned, submitted, req_body, incoming.
  cbn [params_id body_fields validation_errors app].
  f_equal.
  - rewrite !lookup_insert_ne by done. reflexivity.
  - unfold expected_errors, required.
    rewrite !filter_cons, filter_nil; cbn [fst snd].
    repeat case_decide; unfold blank, submitted in *;
      repeat match goal with
             | H : context [<[_ := _]> _ !! _] |- _ =>
                 rewrite lookup_insert_ne in H by done
             end;
      first [reflexivity | contradiction].
Qed.

Lemma validated_title id fields :
  req_body (validated id fields) "title" = cleaned fields "title".
Proof.
  unfold req_body, validated; cbn [body_fields].
  by rewrite !lookup_insert_ne, lookup_insert_eq by done.
Qed.

Lemma validated_author id fields :
  req_body (validated id fields) "author" = cleaned fields "author".
Proof.
  unfold req_body, validated; cbn [body_fields].
  by rewrite lookup_insert_ne, lookup_insert_eq by done.
Qed.

Lemma validated_summary id fields :
  req_body (validated id fields) "summary" = cleaned fields "summary".
Proof. unfold req_body, validated; cbn [body_fields]. by rewrite lookup_insert_eq. Qed.

(** No error is attached exactly when no required field is blank. *)
Lemma expected_errors_nil fields :
  expected_errors fields = [] ↔
  ¬ blank fields "title" ∧ ¬ blank fields "author" ∧ ¬ blank fields "summary".
Proof.
  unfold expected_errors, required.
  rewrite !filter_cons, filter_nil; simpl.
  repeat case_decide; simpl; split; try discriminate; try tauto.
Qed.

(** ** The reads *)

#[global] Instance family_name_le_total : Total Author.family_name_le.
Proof. intros a1 a2. apply String.le_total. Qed.

#[global] Instance family_name_le_trans : Transitive Author.family_name_le.
Proof. intros a1 a2 a3. unfold Author.family_name_le. apply transitivity. Qed.

#[global] Instance title_le_total {A S} : Total (@Book.title_le A S).
Proof. intros b1 b2. apply String.le_total. Qed.

#[global] Instance title_le_trans {A S} : Transitive (@Book.title_le A S).
Proof. intros b1 b2 b3. unfold Book.title_le. apply transitivity. Qed.

(** The order of titles is the order of their code units: the first code
    unit that differs decides, and a proper prefix comes first. *)
Lemma string_le_cons c1 s1 c2 s2 :
  String.le (String c1 s1) (String c2 s2) ↔
  (nat_of_ascii c1 < nat_of_ascii c2)%nat ∨ (c1 = c2 ∧ String.le s1 s2).
Proof.
  unfold String.le, String.leb; simpl.
  unfold Ascii.compare, nat_of_ascii.
  destruct (N.compare_spec (N_of_ascii c1) (N_of_ascii c2)) as [Heq|Hlt|Hgt].
  - assert (c1 = c2) as ->
      by (rewrite <- (ascii_N_embedding c1), <- (ascii_N_embedding c2); congruence).
    split; [by right | intros [Hlt|[_ H]]; [lia | done]].
  - split; [intros _; left; lia | done].
  - split; [done | intros [Hlt|[-> _]]; lia].
Qed.

Lemma string_le_nil (s : string) : String.le "" s.
Proof. by destruct s. Qed.

(** The Author list of a form holds every stored Author, ordered by family
    name. *)
Lemma author_list_full (d : DB) :
  (Author.find |> Author.sort) d ≡ₚ all_authors d ∧
  StronglySorted Author.family_name_le ((Author.find |> Author.sort) d).
Proof.
  unfold Author.sort, Author.find, all_authors. split.
  - apply merge_sort_Permutation.
  - apply (StronglySorted_merge_sort _).
Qed.

(** ** The submissions *)

Lemma expected_errors_blank fields :
  blank fields "title" ∨ blank fields "author" ∨ blank fields "summary" →
  isEmpty (expected_errors fields) = false.
Proof.
  intros Hblank. destruct (expected_errors fields) eqn:Herrs; [|reflexivity].
  apply expected_errors_nil in Herrs. tauto.
Qed.

Lemma expected_errors_valid fields :
  ¬ blank fields "title" → ¬ blank fields "author" → ¬ blank fields "summary" →
  isEmpty (expected_errors fields) = true.
Proof.
  intros Ht Ha Hs.
  assert (expected_errors fields = []) as -> by (apply expected_errors_nil; tauto).
  reflexivity.
Qed.

(** Create, refused: the form again; the store is not touched. *)
Lemma create_post_invalid id fields st :
  isEmpty (expected_errors fields) = false →
  (dispatch book_create_post (incoming id fields) st).2 =
  {| db := db st;
     calls := calls st ++
       [form_again "Create Book" ((Author.find |> Author.sort) (db st))
          (described (ObjectId st (minted st)) fields) fields];
     ObjectId := ObjectId st; minted := S (minted st) |}.
Proof.
  intros Herrs. unfold book_create_post. rewrite dispatch_validation.
  unfold asyncHandler; cbv beta.
  rewrite validated_title, validated_author, validated_summary.
  change (validationResult (validated id fields)) with (expected_errors fields).
  run_handler. rewrite Herrs. run_handler. reflexivity.
Qed.

(** Create, accepted, under an identifier that is not taken. *)
Lemma create_post_valid id fields st :
  isEmpty (expected_errors fields) = true →
  Books (db st) !! ObjectId st (minted st) = None →
  (dispatch book_create_post (incoming id fields) st).2 =
  {| db := {| Books := <[ObjectId st (minted st) :=
                           described (ObjectId st (minted st)) fields]> (Books (db st));
              Authors := Authors (db st) |};
     calls := calls st ++ [Redirect ("/catalog/book/" +:+ ObjectId st (minted st))];
     ObjectId := ObjectId st; minted := S (minted st) |}.
Proof.
  intros Herrs Hfresh. unfold book_create_post. rewrite dispatch_validation.
  unfold asyncHandler; cbv beta.
  rewrite validated_title, validated_author, validated_summary.
  change (validationResult (validated id fields)) with (expected_errors fields).
  run_handler. rewrite Herrs. run_handler.
  cbn [BookSchema._id]. rewrite Hfresh. run_handler. reflexivity.
Qed.

(** Update, refused. *)
Lemma update_post_invalid id fields st :
  isEmpty (expected_errors fields) = false →
  (dispatch book_update_post (incoming id fields) st).2 =
  {| db := db st;
     calls := calls st ++
       [form_again "Update Book" ((Author.find |> Author.sort) (db st))
          (described id fields) fields];
     ObjectId := ObjectId st; minted := minted st |}.
Proof.
  intros Herrs. unfold book_update_post. rewrite dispatch_validation.
  unfold asyncHandler; cbv beta.
  rewrite validated_title, validated_author, validated_summary.
  change (validationResult (validated id fields)) with (expected_errors fields).
  change (params_id (validated id fields)) with id.
  run_handler. rewrite Herrs. run_handler. reflexivity.
Qed.

(** Update, accepted: the write happens when a Book is stored under the path
    identifier, the redirect happens in either case. *)
Lemma update_post_valid id fields st :
  isEmpty (expected_errors fields) = true →
  (dispatch book_update_post (incoming id fields) st).2 =
  {| db := match Books (db st) !! id with
           | Some _ => {| Books := <[id := described id fields]> (Books (db st));
                          Authors := Authors (db st) |}
           | None => db st
           end;
     calls := calls st ++ [Redirect ("/catalog/book/" +:+ id)];
     ObjectId := ObjectId st; minted := minted st |}.
Proof.
  intros Herrs. unfold book_update_post. rewrite dispatch_validation.
  unfold asyncHandler; cbv beta.
  rewrite validated_title, validated_author, validated_summary.
  change (validationResult (validated id fields)) with (expected_errors fields).
  change (params_id (validated id fields)) with id.
  run_handler. rewrite Herrs. run_handler.
  destruct (Books (db st) !! id) as [found|] eqn:Hfound.
  - cbn [BookSchema._id]. rewrite decide_True by reflexivity. run_handler. reflexivity.
  - run_handler. reflexivity.
Qed.

(** C1. A Create or Update submission with a title, author or summary that
    is empty or white space only writes nothing to the store and is answered
    with the form again: the candidate Book built from the trimmed and escaped
    values (under a fresh identifier for Create, the path identifier for
    Update), one error per violated field with its message, and the full
    Author list. *)
Theorem invalid_submission_rerenders_form
    (id : string) (fields : gmap string string) (st : State) :
  blank fields "title" ∨ blank fields "author" ∨ blank fields "summary" →
  ∃ allAuthors,
    allAuthors ≡ₚ all_authors (db st) ∧
    db (dispatch book_create_post (incoming id fields) st).2 = db st ∧
    calls (dispatch book_create_post (incoming id fields) st).2 =
      calls st ++
        [Render "book_form"
           {| View.title := "Create Book";
              View.authors := Some allAuthors;
              View.book := Some (Candidate (described (ObjectId st (minted st)) fields));
              View.errors := Some (expected_errors fields);
              View.book_list := None |}] ∧
    db (dispatch book_update_post (incoming id fields) st).2 = db st ∧
    calls (dispatch book_update_post (incoming id fields) st).2 =
      calls st ++
        [Render "book_form"
           {| View.title := "Update Book";
              View.authors := Some allAuthors;
              View.book := Some (Candidate (described id fields));
              View.errors := Some (expected_errors fields);
              View.book_list := None |}].
Proof.
  intros Hblank. apply expected_errors_blank in Hblank.
  exists ((Author.find |> Author.sort) (db st)).
  split; [apply author_list_full |].
  rewrite create_post_invalid, update_post_invalid by exact Hblank.
  repeat split.
Qed.

Lemma invalid_submission_example :
  blank (filled "  " "A1" "") "title" ∧
  db (dispatch book_create_post (incoming "B1" (filled "  " "A1" "")) (initial sample_db)).2
    = sample_db ∧
  db (dispatch book_update_post (incoming "B1" (filled "  " "A1" "")) (initial sample_db)).2
    = sample_db.
Proof.
  split; [reflexivity |].
  destruct (invalid_submission_rerenders_form "B1" (filled "  " "A1" "") (initial sample_db))
    as (allAuthors & _ & Hcreate & _ & Hupdate & _).
  - left. reflexivity.
  - split; [exact Hcreate | exact Hupdate].
Defined.

(** C2. A Create submission whose title, author and summary are all
    non-empty after trimming persists exactly one new Book: it is stored
    under the identifier it was given on construction (one that is not taken),
    with the trimmed and escaped title, author and summary; every Book stored
    before is kept as it was; and the answer is a redirect to the canonical URL
    of that identifier. *)
Theorem create_persists_one_book
    (id : string) (fields : gmap string string) (st : State) :
  ¬ blank fields "title" → ¬ blank fields "author" → ¬ blank fields "summary" →
  Books (db st) !! ObjectId st (minted st) = None →
  let oid := ObjectId st (minted st) in
  let st' := (dispatch book_create_post (incoming id fields) st).2 in
  Books (db st') !! oid =
    Some {| BookSchema._id := oid;
            BookSchema.title := validator.escape (validator.trim (submitted fields "title"));
            BookSchema.author := validator.escape (validator.trim (submitted fields "author"));
            BookSchema.summary := validator.escape (validator.trim (submitted fields "summary")) |} ∧
  (∀ other, other ≠ oid → Books (db st') !! other = Books (db st) !! other) ∧
  size (Books (db st')) = S (size (Books (db st))) ∧
  Authors (db st') = Authors (db st) ∧
  calls st' = calls st ++ [Redirect ("/catalog/book/" +:+ oid)].
Proof.
  intros Ht Ha Hs Hfresh oid st'. subst oid st'.
  rewrite create_post_valid by auto using expected_errors_valid.
  cbn [db calls Books Authors]. repeat split.
  - apply lookup_insert_eq.
  - intros other Hother. by rewrite lookup_insert_ne.
  - by apply map_size_insert_None.
Qed.

Lemma create_persists_example :
  Books (db (dispatch book_create_post
               (incoming "" (filled " Emma <2> " "A1" "S")) (initial sample_db)).2)
    !! "oid0"
  = Some {| BookSchema._id := "oid0"; BookSchema.title := "Emma &lt;2&gt;";
            BookSchema.author := "A1"; BookSchema.summary := "S" |}.
Proof.
  apply (create_persists_one_book "" (filled " Emma <2> " "A1" "S") (initial sample_db));
    vm_compute; congruence.
Defined.

(** C5. An Update submission with a valid title, author and summary, for a
    path identifier under which a Book is stored: after it the Book stored
    under that identifier still carries the identifier, and its title, author
    and summary are the submitted values (trimmed and escaped); no other stored
    Book is changed, none is added or removed; and the answer is a redirect to
    the canonical URL of the path identifier. *)
Theorem update_replaces_fields_in_place
    (id : string) (fields : gmap string string) (st : State) (old : StoredBook) :
  ¬ blank fields "title" → ¬ blank fields "author" → ¬ blank fields "summary" →
  Books (db st) !! id = Some old →
  let st' := (dispatch book_update_post (incoming id fields) st).2 in
  Books (db st') !! id =
    Some {| BookSchema._id := id;
            BookSchema.title := validator.escape (validator.trim (submitted fields "title"));
            BookSchema.author := validator.escape (validator.trim (submitted fields "author"));
            BookSchema.summary := validator.escape (validator.trim (submitted fields "summary")) |} ∧
  (∀ other, other ≠ id → Books (db st') !! other = Books (db st) !! other) ∧
  dom (Books (db st')) = dom (Books (db st)) ∧
  Authors (db st') = Authors (db st) ∧
  calls st' = calls st ++ [Redirect ("/catalog/book/" +:+ id)].
Proof.
  intros Ht Ha Hs Hold st'. subst st'.
  rewrite update_post_valid by auto using expected_errors_valid.
  cbn [db calls]. rewrite Hold. cbn [Books Authors]. repeat split.
  - apply lookup_insert_eq.
  - intros other Hother. by rewrite lookup_insert_ne.
  - apply dom_insert_lookup_L. by exists old.
Qed.

Lemma update_replaces_example :
  Books (db (dispatch book_update_post
               (incoming "B1" (filled "New Title" "A2" "New Summary"))
               (initial sample_db)).2) !! "B1"
  = Some {| BookSchema._id := "B1"; BookSchema.title := "New Title";
            BookSchema.author := "A2"; BookSchema.summary := "New Summary" |} ∧
  calls (dispatch book_update_post
           (incoming "B1" (filled "New Title" "A2" "New Summary"))
           (initial sample_db)).2
  = [Redirect "/catalog/book/B1"].
Proof.
  destruct (update_replaces_fields_in_place "B1"
              (filled "New Title" "A2" "New Summary") (initial sample_db) emma)
    as (Hbook & _ & _ & _ & Hcalls);
    [vm_compute; congruence .. | exact (conj Hbook Hcalls)].
Defined.

(** C10. Update-submit never forwards an error: it makes one call, which is
    not a call of [next]. When title, author and summary are non-empty after
    trimming the call is the redirect to the canonical URL of the path
    identifier, whether or not a Book is stored under it; when none is, the
    store is left as it was. *)
Theorem update_post_never_not_found
    (id : string) (fields : gmap string string) (st : State) :
  let st' := (dispatch book_update_post (incoming id fields) st).2 in
  (∃ call, calls st' = calls st ++ [call] ∧ ∀ err, call ≠ Next err) ∧
  (¬ blank fields "title" → ¬ blank fields "author" → ¬ blank fields "summary" →
   calls st' = calls st ++ [Redirect ("/catalog/book/" +:+ id)] ∧
   (Books (db st) !! id = None → db st' = db st)).
Proof.
  intros st'. subst st'. split.
  - destruct (isEmpty (expected_errors fields)) eqn:Herrs.
    + rewrite update_post_valid by exact Herrs. eexists. split; [reflexivity | done].
    + rewrite update_post_invalid by exact Herrs. eexists. split; [reflexivity | done].
  - intros Ht Ha Hs.
    rewrite update_post_valid by auto using expected_errors_valid.
    cbn [db calls]. split; [reflexivity |]. by intros ->.
Qed.

Lemma update_post_missing_book_example :
  calls (dispatch book_update_post
           (incoming "B9" (filled "New Title" "A2" "New Summary"))
           (initial sample_db)).2
  = [Redirect "/catalog/book/B9"] ∧
  db (dispatch book_update_post
        (incoming "B9" (filled "New Title" "A2" "New Summary"))
        (initial sample_db)).2
  = sample_db.
Proof.
  destruct (update_post_never_not_found "B9"
              (filled "New Title" "A2" "New Summary") (initial sample_db))
    as [_ Hvalid].
  destruct Hvalid as [Hcalls Hdb]; [vm_compute; congruence .. |].
  split; [exact Hcalls | apply Hdb; reflexivity].
Defined.

(** ** Detail, the update form and the delete handlers *)

Lemma book_detail_missing req st :
  Books (db st) !! params_id req = None →
  (book_detail req st).2 =
  {| db := db st; calls := calls st ++ [Next not_found];
     ObjectId := ObjectId st; minted := minted st |}.
Proof.
  intros Hmissing. unfold book_detail. run_handler.
  rewrite Hmissing. run_handler. reflexivity.
Qed.

Lemma book_update_get_missing req st :
  Books (db st) !! params_id req = None →
  (book_update_get req st).2 =
  {| db := db st; calls := calls st ++ [Next not_found];
     ObjectId := ObjectId st; minted := minted st |}.
Proof.
  intros Hmissing. unfold book_update_get. run_handler.
  rewrite Hmissing. run_handler. reflexivity.
Qed.

Lemma book_delete_get_run req st :
  (book_delete_get req st).2 =
  {| db := db st;
     calls := calls st ++
       match Books (db st) !! params_id req with
       | None => [Redirect catalog_books; delete_view Null]
       | Some book => [delete_view (Populated (Book.populate_doc (db st) book))]
       end;
     ObjectId := ObjectId st; minted := minted st |}.
Proof.
  unfold book_delete_get. run_handler.
  destruct (Books (db st) !! params_id req) as [book|]; run_handler.
  - reflexivity.
  - rewrite <- app_assoc. reflexivity.
Qed.

Lemma book_delete_post_run req st :
  (book_delete_post req st).2 =
  {| db := {| Books := delete (req_body req "id") (Books (db st));
              Authors := Authors (db st) |};
     calls := calls st ++
       match Books (db st) !! params_id req with
       | None => [Redirect catalog_books; Redirect catalog_books]
       | Some _ => [Redirect catalog_books]
       end;
     ObjectId := ObjectId st; minted := minted st |}.
Proof.
  unfold book_delete_post. run_handler.
  destruct (Books (db st) !! params_id req) as [book|]; run_handler.
  - reflexivity.
  - rewrite <- app_assoc. reflexivity.
Qed.

(** C3. A Detail request and an Update-form request whose path identifier
    matches no stored Book forward an error with status 404 and message
    "Book not found" to [next], and do nothing else: no view is rendered, no
    redirect is sent, the store is as it was. *)
Theorem missing_book_forwards_404 (req : Request) (st : State) :
  Books (db st) !! params_id req = None →
  calls (book_detail req st).2 =
    calls st ++ [Next {| message := "Book not found"; status := Some 404 |}] ∧
  db (book_detail req st).2 = db st ∧
  calls (book_update_get req st).2 =
    calls st ++ [Next {| message := "Book not found"; status := Some 404 |}] ∧
  db (book_update_get req st).2 = db st.
Proof.
  intros Hmissing.
  rewrite book_detail_missing, book_update_get_missing by exact Hmissing.
  repeat split.
Qed.

Lemma missing_book_example :
  calls (book_detail (incoming "does-not-exist" ∅) (initial sample_db)).2 =
    [Next {| message := "Book not found"; status := Some 404 |}] ∧
  calls (book_update_get (incoming "does-not-exist" ∅) (initial sample_db)).2 =
    [Next {| message := "Book not found"; status := Some 404 |}].
Proof.
  destruct (missing_book_forwards_404 (incoming "does-not-exist" ∅) (initial sample_db))
    as (Hdetail & _ & Hform & _); [reflexivity |].
  exact (conj Hdetail Hform).
Defined.

(** C6. Delete-submit deletes the Book named by the [id] field of the
    request body, whatever the lookup of the path identifier found, and every
    call it makes is a redirect to the book list (one when the lookup found a
    Book, two when it did not). When the path identifier matches no stored
    Book, Delete-form first redirects to the book list as well, and neither
    handler forwards an error. *)
Theorem delete_post_deletes_body_id (req : Request) (st : State) :
  Books (db (book_delete_post req st).2) =
    delete (req_body req "id") (Books (db st)) ∧
  Authors (db (book_delete_post req st).2) = Authors (db st) ∧
  calls (book_delete_post req st).2 =
    calls st ++
      match Books (db st) !! params_id req with
      | Some _ => [Redirect "/catalog/books"]
      | None => [Redirect "/catalog/books"; Redirect "/catalog/books"]
      end ∧
  (Books (db st) !! params_id req = None →
   ∃ rest,
     calls (book_delete_get req st).2 = calls st ++ Redirect "/catalog/books" :: rest ∧
     ∀ err, Next err ∉ rest).
Proof.
  rewrite book_delete_post_run, book_delete_get_run. cbn [db calls Books Authors].
  split; [reflexivity |]. split; [reflexivity |]. split.
  - by destruct (Books (db st) !! params_id req).
  - intros Hmissing. rewrite Hmissing. eexists. split; [reflexivity |].
    intros err Hin. apply list_elem_of_singleton in Hin. discriminate Hin.
Qed.

Lemma delete_post_example :
  Books (db (book_delete_post (incoming "B9" {["id" := "B1"]}) (initial sample_db)).2)
    = delete "B1" (Books sample_db) ∧
  ∃ rest,
    calls (book_delete_get (incoming "B9" {["id" := "B1"]}) (initial sample_db)).2
      = Redirect "/catalog/books" :: rest.
Proof.
  destruct (delete_post_deletes_body_id (incoming "B9" {["id" := "B1"]}) (initial sample_db))
    as (Hbooks & _ & _ & Hform).
  split; [exact Hbooks |].
  destruct Hform as (rest & Hcalls & _); [reflexivity |].
  exists rest. exact Hcalls.
Defined.

(** C9. When the lookup of Delete-form finds no Book, the handler issues the
    redirect to the book list and then still calls the view renderer, with
    the view model of title "Delete Book" and a [null] book. *)
Theorem delete_get_null_book_reaches_renderer (req : Request) (st : State) :
  Books (db st) !! params_id req = None →
  calls (book_delete_get req st).2 =
    calls st ++
      [Redirect "/catalog/books";
       Render "book_delete"
         {| View.title := "Delete Book"; View.book := Some Null;
            View.book_list := None; View.authors := None; View.errors := None |}].
Proof.
  intros Hmissing. rewrite book_delete_get_run. cbn [calls].
  rewrite Hmissing. reflexivity.
Qed.

Lemma delete_get_null_book_example :
  calls (book_delete_get (incoming "B9" ∅) (initial sample_db)).2 =
    [Redirect "/catalog/books";
     Render "book_delete"
       {| View.title := "Delete Book"; View.book := Some Null;
          View.book_list := None; View.authors := None; View.errors := None |}].
Proof.
  apply (delete_get_null_book_reaches_renderer (incoming "B9" ∅) (initial sample_db)).
  reflexivity.
Defined.

(** C7. On a Delete-form request for an identifier under which nothing is
    stored, the handler does not stop at the redirect to the book list: the
    call of the view renderer follows it. *)
Example delete_get_missing_book_calls :
  calls (book_delete_get (incoming "does-not-exist" ∅) (initial sample_db)).2 =
    [Redirect "/catalog/books";
     Render "book_delete"
       {| View.title := "Delete Book"; View.book := Some Null;
          View.book_list := None; View.authors := None; View.errors := None |}].
Proof. vm_compute. reflexivity. Qed.

(** ** The list and the home page *)

(** Sorting commutes with a map that respects the order: sorting the images
    gives the images of the sorted list. *)
Section sort_fmap.
Context {A B : Type} (f : A → B).
Context (R1 : relation A) `{∀ x y, Decision (R1 x y)}.
Context (R2 : relation B) `{∀ x y, Decision (R2 x y)}.
Hypothesis respects : ∀ x y, R1 x y ↔ R2 (f x) (f y).

Lemma list_merge_fmap (l1 l2 : list A) :
  list_merge R2 (f <$> l1) (f <$> l2) = f <$> list_merge R1 l1 l2.
Proof.
  revert l2. induction l1 as [|x1 l1 IH1]; intros l2.
  - by rewrite fmap_nil, !list_merge_nil_l.
  - induction l2 as [|x2 l2 IH2].
    + by rewrite fmap_nil, !list_merge_nil_r.
    + rewrite !fmap_cons, !list_merge_cons.
      destruct (decide (R1 x1 x2)) as [Hle|Hnle].
      * rewrite decide_True by (by apply respects).
        rewrite fmap_cons. f_equal. rewrite <- IH1. by rewrite fmap_cons.
      * rewrite decide_False by (by rewrite <- respects).
        rewrite fmap_cons. f_equal. rewrite <- IH2. by rewrite fmap_cons.
Qed.

Lemma merge_list_to_stack_fmap (st : list (option (list A))) (l : list A) :
  merge_list_to_stack R2 (stack_fmap f st) (f <$> l) =
  stack_fmap f (merge_list_to_stack R1 st l).
Proof.
  revert l. induction st as [|[l'|] st IH]; intros l; simpl; [done | | done].
  by rewrite list_merge_fmap, IH.
Qed.

Lemma merge_stack_fmap (st : list (option (list A))) :
  merge_stack R2 (stack_fmap f st) = f <$> merge_stack R1 st.
Proof.
  induction st as [|[l'|] st IH]; simpl; [done | | done].
  by rewrite IH, list_merge_fmap.
Qed.

Lemma merge_sort_aux_fmap (st : list (option (list A))) (l : list A) :
  merge_sort_aux R2 (stack_fmap f st) (f <$> l) =
  f <$> merge_sort_aux R1 st l.
Proof.
  revert st. induction l as [|x l IH]; intros st; simpl.
  - apply merge_stack_fmap.
  - rewrite <- IH. f_equal. apply (merge_list_to_stack_fmap st [x]).
Qed.

Lemma merge_sort_fmap (l : list A) :
  merge_sort R2 (f <$> l) = f <$> merge_sort R1 l.
Proof. apply (merge_sort_aux_fmap []). Qed.
End sort_fmap.

Lemma find_sort_populate (d : DB) :
  (Book.find |> Book.sort |> Book.populate) d = retrieve_book_list d.
Proof.
  unfold Book.populate, Book.sort, Book.find, retrieve_book_list, all_books.
  rewrite <- (merge_sort_fmap (Book.populate_doc d) Book.title_le Book.title_le) by done.
  f_equal. rewrite <- list_fmap_compose. reflexivity.
Qed.

Lemma book_list_run req st :
  (book_list req st).2 =
  {| db := db st;
     calls := calls st ++ [Render "book_list" (listing "Book List" (retrieve_book_list (db st)))];
     ObjectId := ObjectId st; minted := minted st |}.
Proof.
  unfold book_list. unfold asyncHandler; cbv beta.
  unfold exec, res.render, record_call, mbind, M_bind. cbn [fst snd db calls ObjectId minted].
  rewrite find_sort_populate. reflexivity.
Qed.

Lemma index_run req st :
  (index req st).2 =
  {| db := db st;
     calls := calls st ++ [Render "index" (listing "Home" (retrieve_book_list (db st)))];
     ObjectId := ObjectId st; minted := minted st |}.
Proof.
  unfold index. unfold asyncHandler; cbv beta.
  unfold exec, res.render, record_call, mbind, M_bind. cbn [fst snd db calls ObjectId minted].
  rewrite find_sort_populate. reflexivity.
Qed.

Lemma retrieve_book_list_all (d : DB) :
  retrieve_book_list d ≡ₚ shown d <$> all_books d.
Proof. apply merge_sort_Permutation. Qed.

Lemma retrieve_book_list_sorted (d : DB) :
  StronglySorted Book.title_le (retrieve_book_list d).
Proof. apply (StronglySorted_merge_sort _). Qed.

Lemma retrieve_book_list_length (d : DB) :
  length (retrieve_book_list d) = size (Books d).
Proof.
  rewrite retrieve_book_list_all. unfold all_books.
  by rewrite !length_fmap, length_map_to_list.
Qed.

(** C4, as stated, fails: in the store reached by one accepted Create
    submission on the empty store, the one Book has an author reference under
    which no Author is stored, and the List operation renders it with a [null]
    author, not with an Author entity. *)
Lemma listing_author_unresolved :
  Books (db orphan_state) !! "oid0" =
    Some {| BookSchema._id := "oid0"; BookSchema.title := "Emma";
            BookSchema.author := "0123456789abcdef01234567";
            BookSchema.summary := "A novel." |} ∧
  calls (book_list (incoming "" ∅) orphan_state).2 =
    calls orphan_state ++
      [Render "book_list"
         {| View.title := "Book List";
            View.book_list :=
              Some [{| BookSchema._id := "oid0"; BookSchema.title := "Emma";
                       BookSchema.author := None; BookSchema.summary := () |}];
            View.authors := None; View.book := None; View.errors := None |}] ∧
  ¬ (∀ listed : list ListedBook,
       calls (book_list (incoming "" ∅) orphan_state).2 =
         calls orphan_state ++
           [Render "book_list"
              {| View.title := "Book List"; View.book_list := Some listed;
                 View.authors := None; View.book := None; View.errors := None |}] →
       Forall (λ b, is_Some (BookSchema.author b)) listed).
Proof.
  assert (calls (book_list (incoming "" ∅) orphan_state).2 =
    calls orphan_state ++
      [Render "book_list"
         {| View.title := "Book List";
            View.book_list :=
              Some [{| BookSchema._id := "oid0"; BookSchema.title := "Emma";
                       BookSchema.author := None; BookSchema.summary := () |}];
            View.authors := None; View.book := None; View.errors := None |}])
    as Hcalls by (vm_compute; reflexivity).
  split; [vm_compute; reflexivity |]. split; [exact Hcalls |].
  intros Hclaim. specialize (Hclaim _ Hcalls).
  apply Forall_cons in Hclaim as [[a Ha] _]. discriminate Ha.
Qed.

(** C4, amended. In every state of the store, List and Home render the same
    list: it holds every stored Book exactly once, shown with its identifier,
    its title and its author reference looked up in the Author collection (the
    Author stored under the reference, [null] when none is stored under it);
    it is in ascending order of title, titles compared code unit by code unit;
    it has as many entries as Books are stored, so it is empty when the
    collection is. *)
Theorem listing_sorted_with_authors_looked_up (req : Request) (st : State) :
  ∃ listed : list ListedBook,
    calls (book_list req st).2 =
      calls st ++
        [Render "book_list"
           {| View.title := "Book List"; View.book_list := Some listed;
              View.authors := None; View.book := None; View.errors := None |}] ∧
    calls (index req st).2 =
      calls st ++
        [Render "index"
           {| View.title := "Home"; View.book_list := Some listed;
              View.authors := None; View.book := None; View.errors := None |}] ∧
    listed ≡ₚ
      (λ book : StoredBook,
         {| BookSchema._id := BookSchema._id book;
            BookSchema.title := BookSchema.title book;
            BookSchema.author := Authors (db st) !! BookSchema.author book;
            BookSchema.summary := () |}) <$> all_books (db st) ∧
    StronglySorted
      (λ b1 b2, String.le (BookSchema.title b1) (BookSchema.title b2)) listed ∧
    length listed = size (Books (db st)).
Proof.
  exists (retrieve_book_list (db st)).
  rewrite book_list_run, index_run. cbn [calls].
  split; [reflexivity |]. split; [reflexivity |]. split; [|split].
  - apply retrieve_book_list_all.
  - apply retrieve_book_list_sorted.
  - apply retrieve_book_list_length.
Qed.

(** C8. In every state of the store, Home and List retrieve the same list
    (all Books, projected to title and author with the author resolved, in
    ascending order of title) and leave the store alone; the view models they
    render agree on every key but the title, "Home" against "Book List", and
    the templates are "index" and "book_list". *)
Theorem home_retrieval_same_as_list (req : Request) (st : State) :
  ∃ listed : list ListedBook,
    listed = retrieve_book_list (db st) ∧
    (book_list req st).2 =
      {| db := db st;
         calls := calls st ++
           [Render "book_list"
              {| View.title := "Book List"; View.book_list := Some listed;
                 View.authors := None; View.book := None; View.errors := None |}];
         ObjectId := ObjectId st; minted := minted st |} ∧
    (index req st).2 =
      {| db := db st;
         calls := calls st ++
           [Render "index"
              {| View.title := "Home"; View.book_list := Some listed;
                 View.authors := None; View.book := None; View.errors := None |}];
         ObjectId := ObjectId st; minted := minted st |}.
Proof.
  exists (retrieve_book_list (db st)).
  rewrite book_list_run, index_run. repeat split.
Qed.

(** ** More on trimming and escaping *)

Lemma ltrim_fixed c rest :
  validator.is_whitespace c = false →
  validator.ltrim (String c rest) = String c rest.
Proof. intros Hc. simpl. by rewrite Hc. Qed.

Lemma ltrim_idempotent (str : string) :
  validator.ltrim (validator.ltrim str) = validator.ltrim str.
Proof.
  destruct (validator.ltrim str) as [|c rest] eqn:Hl; [reflexivity |].
  apply ltrim_fixed. by apply ltrim_head in Hl.
Qed.

Lemma rtrim_idempotent (str : string) :
  validator.rtrim (validator.rtrim str) = validator.rtrim str.
Proof.
  induction str as [|c rest IH]; simpl; [reflexivity |].
  destruct (validator.rtrim rest) as [|c' kept] eqn:Hr.
  - destruct (validator.is_whitespace c) eqn:Hc; simpl; [reflexivity |].
    by rewrite Hc.
  - change (validator.rtrim (String c (String c' kept))) with
      (match validator.rtrim (String c' kept) with
       | EmptyString =>
           if validator.is_whitespace c then EmptyString else String c EmptyString
       | kept' => String c kept'
       end).
    by rewrite IH.
Qed.

(** [rtrim] keeps the head of what it keeps. *)
Lemma rtrim_head (str : string) c kept :
  validator.rtrim str = String c kept → ∃ rest, str = String c rest.
Proof.
  destruct str as [|c' rest]; simpl; [discriminate |].
  destruct (validator.rtrim rest); [destruct (validator.is_whitespace c') |];
    intros Heq; inversion Heq; subst; by eexists.
Qed.

Lemma ltrim_trim (str : string) :
  validator.ltrim (validator.trim str) = validator.trim str.
Proof.
  unfold validator.trim.
  destruct (validator.rtrim (validator.ltrim str)) as [|c kept] eqn:Hr;
    [reflexivity |].
  apply ltrim_fixed. apply rtrim_head in Hr as [rest Hl].
  by apply ltrim_head in Hl.
Qed.

Lemma rtrim_trim (str : string) :
  validator.rtrim (validator.trim str) = validator.trim str.
Proof. apply rtrim_idempotent. Qed.

Lemma trim_idempotent_aux (str : string) :
  validator.trim (validator.trim str) = validator.trim str.
Proof.
  unfold validator.trim at 1. by rewrite ltrim_trim, rtrim_trim.
Qed.

Lemma append_cons c (a b : string) : String c a +:+ b = String c (a +:+ b).
Proof. reflexivity. Qed.

Lemma append_nil_r (str : string) : str +:+ "" = str.
Proof.
  induction str as [|c rest IH]; [reflexivity |].
  by rewrite append_cons, IH.
Qed.

Lemma append_empty (a b : string) : a +:+ b = "" → a = "" ∧ b = "".
Proof. destruct a; [done |]. rewrite append_cons. discriminate. Qed.

Lemma rtrim_app (a b : string) :
  validator.rtrim b ≠ "" → validator.rtrim (a +:+ b) = a +:+ validator.rtrim b.
Proof.
  intros Hb. induction a as [|c rest IH]; [reflexivity |].
  rewrite !append_cons. simpl.
  rewrite IH. destruct (rest +:+ validator.rtrim b) eqn:Happ; [|reflexivity].
  by apply append_empty in Happ as [_ ?].
Qed.

(** What [escape] puts for a code unit starts and ends with a code unit that
    is not white space, unless the code unit itself is white space. *)
Lemma escape_char_trimmed c :
  validator.is_whitespace c = false →
  validator.ltrim (validator.escape_char c) = validator.escape_char c ∧
  validator.rtrim (validator.escape_char c) = validator.escape_char c ∧
  validator.escape_char c ≠ "".
Proof.
  destruct c as [[] [] [] [] [] [] [] []]; vm_compute; intros; try done.
Qed.

Lemma escape_nonempty (str : string) : str ≠ "" → validator.escape str ≠ "".
Proof.
  destruct str as [|c rest]; [done |]. intros _ Hesc. simpl in Hesc.
  apply append_empty in Hesc as [Hc _]. revert Hc.
  destruct c as [[] [] [] [] [] [] [] []]; vm_compute; discriminate.
Qed.

Lemma ltrim_app (a b : string) :
  a ≠ "" → validator.ltrim a = a → validator.ltrim (a +:+ b) = a +:+ b.
Proof.
  destruct a as [|c rest]; [done |]. intros _ Hfix.
  rewrite append_cons. simpl in *.
  destruct (validator.is_whitespace c); [|reflexivity].
  exfalso. assert (String.length (validator.ltrim rest) ≤ String.length rest)%nat.
  { clear. induction rest as [|c' r IH]; simpl; [lia |].
    destruct (validator.is_whitespace c'); simpl; lia. }
  rewrite Hfix in H. simpl in H. lia.
Qed.

(** Escaping a trimmed string leaves it trimmed. *)
Lemma ltrim_escape (str : string) :
  validator.ltrim str = str → validator.ltrim (validator.escape str) = validator.escape str.
Proof.
  destruct str as [|c rest]; [reflexivity |]. intros Hfix.
  assert (validator.is_whitespace c = false) as Hc by (by apply ltrim_head in Hfix).
  simpl. apply escape_char_trimmed in Hc as (Hl & _ & Hne). by apply ltrim_app.
Qed.

Lemma rtrim_escape (str : string) :
  validator.rtrim str = str → validator.rtrim (validator.escape str) = validator.escape str.
Proof.
  induction str as [|c rest IH]; [reflexivity |]. simpl.
  destruct (validator.rtrim rest) as [|c' kept] eqn:Hr.
  - destruct (validator.is_whitespace c) eqn:Hc; [discriminate |].
    intros [= <-]. simpl. rewrite append_nil_r.
    by apply escape_char_trimmed in Hc as (_ & ? & _).
  - intros [= Hrest]. specialize (IH Hrest).
    rewrite rtrim_app; rewrite IH; [reflexivity |].
    apply escape_nonempty. by rewrite <- Hrest.
Qed.

Lemma trim_escape_trim (str : string) :
  validator.trim (validator.escape (validator.trim str)) =
  validator.escape (validator.trim str).
Proof.
  unfold validator.trim at 1.
  rewrite ltrim_escape by apply ltrim_trim.
  apply rtrim_escape, rtrim_trim.
Qed.



Lemma string_forall_app p (a b : string) :
  string_forall p (a +:+ b) = string_forall p a && string_forall p b.
Proof.
  induction a as [|c rest IH]; [reflexivity |].
  rewrite append_cons. simpl. by rewrite IH, andb_assoc.
Qed.

Lemma length_app (a b : string) :
  String.length (a +:+ b) = (String.length a + String.length b)%nat.
Proof.
  induction a as [|c rest IH]; [reflexivity |].
  rewrite append_cons. simpl. by rewrite IH.
Qed.

(** What [escape] does to one code unit: it keeps a code unit it does not
    replace, and puts at least four code units, none of them markup and the
    first an ampersand, for one it replaces. *)
Lemma escape_char_cases c :
  string_forall (λ c', negb (markup_char c')) (validator.escape_char c) = true ∧
  (if escaped_char c
   then (4 ≤ String.length (validator.escape_char c))%nat ∧
        string_forall (λ c', negb (escaped_char c')) (validator.escape_char c) = false
   else validator.escape_char c = String c EmptyString).
Proof. destruct c as [[] [] [] [] [] [] [] []]; vm_compute; auto. Qed.

Lemma escape_markup_free (str : string) : markup_free (validator.escape str).
Proof.
  unfold markup_free. induction str as [|c rest IH]; [reflexivity |]. simpl.
  rewrite string_forall_app, IH, andb_true_r. apply escape_char_cases.
Qed.

Lemma escape_plain (str : string) : plain str → validator.escape str = str.
Proof.
  unfold plain. induction str as [|c rest IH]; [reflexivity |]. simpl.
  intros [Hc Hrest]%andb_true_iff. apply negb_true_iff in Hc.
  pose proof (escape_char_cases c) as [_ Hcase]. rewrite Hc in Hcase.
  by rewrite Hcase, append_cons, IH.
Qed.

Lemma escape_length (str : string) :
  (String.length str ≤ String.length (validator.escape str))%nat.
Proof.
  induction str as [|c rest IH]; [reflexivity |]. simpl. rewrite length_app.
  pose proof (escape_char_cases c) as [_ Hcase].
  destruct (escaped_char c); [lia |]. rewrite Hcase. simpl. lia.
Qed.

Lemma escape_same_length_plain (str : string) :
  String.length (validator.escape str) = String.length str → plain str.
Proof.
  unfold plain. induction str as [|c rest IH]; [reflexivity |]. simpl.
  rewrite length_app. pose proof (escape_length rest) as Hrest.
  pose proof (escape_char_cases c) as [_ Hcase].
  destruct (escaped_char c); [lia |]. rewrite Hcase. simpl.
  intros Hlen. apply IH. lia.
Qed.

Lemma escape_fixed_iff (str : string) : validator.escape str = str ↔ plain str.
Proof.
  split; [|apply escape_plain].
  intros Hfix. apply escape_same_length_plain. by rewrite Hfix.
Qed.

Lemma plain_escape (str : string) : plain (validator.escape str) → plain str.
Proof.
  unfold plain. induction str as [|c rest IH]; [reflexivity |]. simpl.
  rewrite string_forall_app. intros [Hc Hrest]%andb_true_iff.
  rewrite IH by exact Hrest. rewrite andb_true_r.
  pose proof (escape_char_cases c) as [_ Hcase].
  destruct (escaped_char c); [|reflexivity].
  destruct Hcase as [_ Hcase]. congruence.
Qed.

Lemma cleaned_sanitized fields name :
  ¬ blank fields name → sanitized (cleaned fields name).
Proof.
  intros Hblank. split; [|split].
  - by apply escape_nonempty.
  - apply trim_escape_trim.
  - apply escape_markup_free.
Qed.

(** ** Every handler, on every request *)

Lemma book_detail_run req st :
  (book_detail req st).2 =
  {| db := db st;
     calls := calls st ++
       [match Books (db st) !! params_id req with
        | None => Next not_found
        | Some book =>
            Render "book_detail"
              {| View.title := BookSchema.title book;
                 View.book := Some (Populated (resolved (db st) book));
                 View.book_list := None; View.authors := None;
                 View.errors := None |}
        end];
     ObjectId := ObjectId st; minted := minted st |}.
Proof.
  unfold book_detail. run_handler.
  destruct (Books (db st) !! params_id req) as [book|]; run_handler; reflexivity.
Qed.

Lemma book_update_get_run req st :
  (book_update_get req st).2 =
  {| db := db st;
     calls := calls st ++
       [match Books (db st) !! params_id req with
        | None => Next not_found
        | Some book =>
            Render "book_form"
              {| View.title := "Update Book";
                 View.authors := Some ((Author.find |> Author.sort) (db st));
                 View.book := Some (Populated (resolved (db st) book));
                 View.book_list := None; View.errors := None |}
        end];
     ObjectId := ObjectId st; minted := minted st |}.
Proof.
  unfold book_update_get. run_handler.
  destruct (Books (db st) !! params_id req) as [book|]; run_handler; reflexivity.
Qed.

Lemma book_create_get_run req st :
  (book_create_get req st).2 =
  {| db := db st;
     calls := calls st ++
       [Render "book_form"
          {| View.title := "Create Book";
             View.authors := Some ((Author.find |> Author.sort) (db st));
             View.book_list := None; View.book := None; View.errors := None |}];
     ObjectId := ObjectId st; minted := minted st |}.
Proof. unfold book_create_get. run_handler. reflexivity. Qed.

(** Create, accepted, under an identifier that is taken: the insert is
    refused and the error goes to [next]. *)
Lemma create_post_duplicate id fields st taken :
  isEmpty (expected_errors fields) = true →
  Books (db st) !! ObjectId st (minted st) = Some taken →
  (dispatch book_create_post (incoming id fields) st).2 =
  {| db := db st;
     calls := calls st ++ [Next Book.duplicate_key];
     ObjectId := ObjectId st; minted := S (minted st) |}.
Proof.
  intros Herrs Htaken. unfold book_create_post. rewrite dispatch_validation.
  unfold asyncHandler; cbv beta.
  rewrite validated_title, validated_author, validated_summary.
  change (validationResult (validated id fields)) with (expected_errors fields).
  run_handler. rewrite Herrs. run_handler.
  cbn [BookSchema._id]. rewrite Htaken. run_handler. reflexivity.
Qed.

Lemma isEmpty_acceptable fields :
  isEmpty (expected_errors fields) = true ↔ acceptable fields.
Proof.
  unfold acceptable. rewrite <- expected_errors_nil.
  destruct (expected_errors fields); simpl; split; congruence.
Qed.


Lemma serve_single (handler : Middleware) req st :
  (dispatch [handler] req st).2 = (handler req st).2.
Proof. reflexivity. Qed.

(** Unfolding [serve] to the state the handler it runs computes. *)
Ltac serve_handler :=
  unfold serve, stack_of; rewrite ?serve_single;
  rewrite ?book_list_run, ?index_run, ?book_detail_run, ?book_update_get_run,
    ?book_create_get_run, ?book_delete_get_run, ?book_delete_post_run;
  cbn [db calls ObjectId minted Books Authors params_id incoming].

(** The writes a request can make: none, one Book built from an acceptable
    submission put under one identifier, or the removal of the Book named by
    the [id] field of the body. *)
Lemma serve_effect e id fields st :
  Authors (db (serve e id fields st)) = Authors (db st) ∧
  (Books (db (serve e id fields st)) = Books (db st) ∨
   (∃ key, acceptable fields ∧
      Books (db (serve e id fields st)) =
        <[key := described key fields]> (Books (db st))) ∨
   (e = Book_delete_post ∧
      Books (db (serve e id fields st)) =
        delete (submitted fields "id") (Books (db st)))).
Proof.
  destruct e; serve_handler; try (split; [reflexivity | by left]).
  - destruct (isEmpty (expected_errors fields)) eqn:Herrs.
    + destruct (Books (db st) !! ObjectId st (minted st)) as [taken|] eqn:Hoid.
      * rewrite (create_post_duplicate _ _ _ taken) by done.
        split; [reflexivity | by left].
      * rewrite create_post_valid by done. cbn [db Books Authors].
        split; [reflexivity |]. right; left. eexists.
        split; [by apply isEmpty_acceptable | reflexivity].
    + rewrite create_post_invalid by done. split; [reflexivity | by left].
  - split; [reflexivity |]. right; right. split; reflexivity.
  - destruct (isEmpty (expected_errors fields)) eqn:Herrs.
    + rewrite update_post_valid by done. cbn [db].
      destruct (Books (db st) !! id); cbn [Books Authors].
      * split; [reflexivity |]. right; left. eexists.
        split; [by apply isEmpty_acceptable | reflexivity].
      * split; [reflexivity | by left].
    + rewrite update_post_invalid by done. split; [reflexivity | by left].
Qed.

(** X1. The create form is rendered with every stored Author, in ascending
    order of family name, and with neither a book nor errors; the store is
    left as it was. *)
Theorem create_form_lists_all_authors (req : Request) (st : State) :
  ∃ allAuthors : list AuthorSchema.t,
    allAuthors ≡ₚ all_authors (db st) ∧
    StronglySorted
      (λ a1 a2, String.le (AuthorSchema.family_name a1) (AuthorSchema.family_name a2))
      allAuthors ∧
    (book_create_get req st).2 =
      {| db := db st;
         calls := calls st ++
           [Render "book_form"
              {| View.title := "Create Book"; View.authors := Some allAuthors;
                 View.book_list := None; View.book := None; View.errors := None |}];
         ObjectId := ObjectId st; minted := minted st |}.
Proof.
  exists ((Author.find |> Author.sort) (db st)).
  destruct (author_list_full (db st)) as [Hall Hsorted].
  split; [exact Hall |]. split; [exact Hsorted |]. apply book_create_get_run.
Qed.

(** X2. When a Book is stored under the path identifier, Detail, the update
    form and the delete form each make one call, the render of their view
    with that Book, its author reference looked up in the Author collection
    and its summary kept; none of them redirects or calls [next], and the
    store is left as it was. *)
Theorem stored_book_is_rendered (req : Request) (st : State) (book : StoredBook) :
  Books (db st) !! params_id req = Some book →
  let populated :=
    Populated {| BookSchema._id := BookSchema._id book;
                 BookSchema.title := BookSchema.title book;
                 BookSchema.author := Authors (db st) !! BookSchema.author book;
                 BookSchema.summary := BookSchema.summary book |} in
  calls (book_detail req st).2 =
    calls st ++
      [Render "book_detail"
         {| View.title := BookSchema.title book; View.book := Some populated;
            View.book_list := None; View.authors := None; View.errors := None |}] ∧
  (∃ allAuthors,
     allAuthors ≡ₚ all_authors (db st) ∧
     calls (book_update_get req st).2 =
       calls st ++
         [Render "book_form"
            {| View.title := "Update Book"; View.authors := Some allAuthors;
               View.book := Some populated;
               View.book_list := None; View.errors := None |}]) ∧
  calls (book_delete_get req st).2 =
    calls st ++
      [Render "book_delete"
         {| View.title := "Delete Book"; View.book := Some populated;
            View.book_list := None; View.authors := None; View.errors := None |}] ∧
  db (book_detail req st).2 = db st ∧
  db (book_update_get req st).2 = db st ∧
  db (book_delete_get req st).2 = db st.
Proof.
  intros Hstored populated. subst populated.
  rewrite book_detail_run, book_update_get_run, book_delete_get_run.
  cbn [db calls]. rewrite Hstored.
  split; [reflexivity |]. split; [|repeat split].
  exists ((Author.find |> Author.sort) (db st)).
  split; [apply author_list_full | reflexivity].
Qed.

Lemma stored_book_is_rendered_example :
  calls (book_detail (incoming "B1" ∅) (initial sample_db)).2 =
    [Render "book_detail"
       {| View.title := "Emma";
          View.book :=
            Some (Populated {| BookSchema._id := "B1"; BookSchema.title := "Emma";
                               BookSchema.author := Some austen;
                               BookSchema.summary := "A novel." |});
          View.book_list := None; View.authors := None; View.errors := None |}].
Proof.
  apply (stored_book_is_rendered (incoming "B1" ∅) (initial sample_db) emma).
  reflexivity.
Defined.

(** X3. An accepted Create submission whose new identifier is already taken
    writes nothing and sends no redirect: the refused insert is passed to
    [next] as an error without a status. *)
Theorem create_with_taken_identifier
    (id : string) (fields : gmap string string) (st : State) (taken : StoredBook) :
  acceptable fields →
  Books (db st) !! ObjectId st (minted st) = Some taken →
  db (serve Book_create_post id fields st) = db st ∧
  ∃ err, calls (serve Book_create_post id fields st) = calls st ++ [Next err] ∧
         status err = None.
Proof.
  intros Hok Htaken. apply isEmpty_acceptable in Hok. unfold serve, stack_of.
  rewrite (create_post_duplicate _ _ _ taken) by done.
  split; [reflexivity |]. by exists Book.duplicate_key.
Qed.

Lemma create_with_taken_identifier_example :
  db (serve Book_create_post "" (filled "Emma" "A1" "S") taken_state) = sample_db.
Proof.
  apply (create_with_taken_identifier "" (filled "Emma" "A1" "S") taken_state emma).
  - repeat split; vm_compute; congruence.
  - reflexivity.
Defined.

(** X4. No handler writes to the Author collection. *)
Theorem authors_never_written
    (e : Export) (id : string) (fields : gmap string string) (st : State) :
  Authors (db (serve e id fields st)) = Authors (db st).
Proof. apply serve_effect. Qed.

(** X5. The only writes to the Book collection are those of the three
    submissions: every other handler leaves the whole store as it was and
    takes no identifier. *)
Theorem get_handlers_write_nothing
    (e : Export) (id : string) (fields : gmap string string) (st : State) :
  e ≠ Book_create_post → e ≠ Book_update_post → e ≠ Book_delete_post →
  db (serve e id fields st) = db st ∧
  minted (serve e id fields st) = minted st.
Proof.
  intros Hcreate Hupdate Hdelete.
  destruct e; try done; serve_handler; split; reflexivity.
Qed.

Lemma get_handlers_write_nothing_example :
  db (serve Book_delete_get "B9" ∅ (initial sample_db)) = sample_db.
Proof.
  apply (get_handlers_write_nothing Book_delete_get "B9" ∅ (initial sample_db));
    discriminate.
Defined.

(** X6. If every Book is stored under its own identifier, it is still so
    after any request to any handler. *)
Theorem keyed_by_id_kept
    (e : Export) (id : string) (fields : gmap string string) (st : State) :
  keyed_by_id (db st) → keyed_by_id (db (serve e id fields st)).
Proof.
  unfold keyed_by_id. intros Hkeyed.
  destruct (serve_effect e id fields st) as [_ [-> | [(key & _ & ->) | [_ ->]]]].
  - exact Hkeyed.
  - by apply map_Forall_insert_2.
  - by apply map_Forall_delete.
Qed.

Lemma keyed_by_id_kept_example :
  keyed_by_id
    (db (serve Book_update_post "B1" (filled "Emma" "A1" "S") (initial sample_db))).
Proof.
  apply (keyed_by_id_kept Book_update_post "B1" (filled "Emma" "A1" "S")
           (initial sample_db)).
  unfold keyed_by_id. apply (bool_decide_unpack _). vm_compute. exact I.
Defined.

(** X7. If the title, author and summary of every stored Book are non-empty,
    without white space at either end, and free of quotes, angle brackets,
    slashes and backticks, they still are after any request to any handler:
    what a submission stores has passed [trim], the length check and
    [escape]. *)
Theorem stored_values_stay_sanitized
    (e : Export) (id : string) (fields : gmap string string) (st : State) :
  all_sanitized (db st) → all_sanitized (db (serve e id fields st)).
Proof.
  unfold all_sanitized. intros Hclean.
  destruct (serve_effect e id fields st)
    as [_ [-> | [(key & (Ht & Ha & Hs) & ->) | [_ ->]]]].
  - exact Hclean.
  - apply map_Forall_insert_2; [|exact Hclean].
    split; [|split]; by apply cleaned_sanitized.
  - by apply map_Forall_delete.
Qed.

Lemma stored_values_stay_sanitized_example :
  all_sanitized
    (db (serve Book_create_post "" (filled "<b>Emma</b>" "A1" "S") (initial sample_db))).
Proof.
  apply (stored_values_stay_sanitized Book_create_post ""
           (filled "<b>Emma</b>" "A1" "S") (initial sample_db)).
  unfold all_sanitized. apply (bool_decide_unpack _). vm_compute. exact I.
Defined.

(** The calls a request adds. *)
Lemma serve_calls e id fields st :
  ∃ added,
    calls (serve e id fields st) = calls st ++ added ∧
    (length added = 1 ∨
     length added = 2 ∧ (e = Book_delete_get ∨ e = Book_delete_post) ∧
       Books (db st) !! id = None).
Proof.
  destruct e; serve_handler; try (eexists; split; [reflexivity | by left]).
  - destruct (isEmpty (expected_errors fields)) eqn:Herrs.
    + destruct (Books (db st) !! ObjectId st (minted st)) as [taken|] eqn:Hoid.
      * rewrite (create_post_duplicate _ _ _ taken) by done.
        eexists; split; [reflexivity | by left].
      * rewrite create_post_valid by done.
        eexists; split; [reflexivity | by left].
    + rewrite create_post_invalid by done. eexists; split; [reflexivity | by left].
  - destruct (Books (db st) !! id) eqn:Hid;
      (eexists; split; [reflexivity |]); [by left | right; auto].
  - destruct (Books (db st) !! id) eqn:Hid;
      (eexists; split; [reflexivity |]); [by left | right; auto].
  - destruct (isEmpty (expected_errors fields)) eqn:Herrs.
    + rewrite update_post_valid by done. eexists; split; [reflexivity | by left].
    + rewrite update_post_invalid by done. eexists; split; [reflexivity | by left].
Qed.

(** X8. Every handler answers every request: it adds one call to those made
    before, or two; and two only in the delete form and the delete submission,
    when no Book is stored under the path identifier. *)
Theorem every_request_is_answered
    (e : Export) (id : string) (fields : gmap string string) (st : State) :
  ∃ added : list Call,
    calls (serve e id fields st) = calls st ++ added ∧
    (length added = 1 ∨
     length added = 2 ∧ (e = Book_delete_get ∨ e = Book_delete_post) ∧
       Books (db st) !! id = None).
Proof. apply serve_calls. Qed.

(** ** One request after another *)

Lemma acceptable_cleaned fields :
  acceptable fields → isEmpty (expected_errors fields) = true.
Proof. apply isEmpty_acceptable. Qed.

(** X9. After an accepted Create submission, the Book is found where the
    redirect points: a Detail request for the new identifier renders it, with
    the trimmed and escaped title, author and summary, and the author
    reference looked up in the Author collection. *)
Theorem created_book_is_found
    (id : string) (fields later : gmap string string) (st : State) :
  acceptable fields →
  Books (db st) !! ObjectId st (minted st) = None →
  let oid := ObjectId st (minted st) in
  let st1 := serve Book_create_post id fields st in
  calls (serve Book_detail oid later st1) =
    calls st ++
      [Redirect ("/catalog/book/" +:+ oid);
       Render "book_detail"
         {| View.title := cleaned fields "title";
            View.book :=
              Some (Populated
                      {| BookSchema._id := oid;
                         BookSchema.title := cleaned fields "title";
                         BookSchema.author := Authors (db st) !! cleaned fields "author";
                         BookSchema.summary := cleaned fields "summary" |});
            View.book_list := None; View.authors := None; View.errors := None |}].
Proof.
  intros Hok Hfresh oid st1. subst oid st1. serve_handler.
  unfold serve, stack_of. rewrite create_post_valid by auto using acceptable_cleaned.
  cbn [db calls Books Authors]. rewrite lookup_insert_eq, <- app_assoc. reflexivity.
Qed.

Lemma created_book_is_found_example :
  calls (serve Book_detail "oid0" ∅
           (serve Book_create_post "" (filled "Emma" "A1" "S") (initial empty_db))) =
    [Redirect "/catalog/book/oid0";
     Render "book_detail"
       {| View.title := "Emma";
          View.book :=
            Some (Populated {| BookSchema._id := "oid0"; BookSchema.title := "Emma";
                               BookSchema.author := None; BookSchema.summary := "S" |});
          View.book_list := None; View.authors := None; View.errors := None |}].
Proof.
  apply (created_book_is_found "" (filled "Emma" "A1" "S") ∅ (initial empty_db)).
  - repeat split; vm_compute; congruence.
  - reflexivity.
Defined.

(** X10. After an accepted Update submission for an identifier under which
    a Book is stored, a Detail request for that identifier renders the
    submitted values, trimmed and escaped, under the same identifier. *)
Theorem updated_book_is_shown
    (id : string) (fields later : gmap string string) (st : State) (old : StoredBook) :
  acceptable fields →
  Books (db st) !! id = Some old →
  calls (serve Book_detail id later (serve Book_update_post id fields st)) =
    calls st ++
      [Redirect ("/catalog/book/" +:+ id);
       Render "book_detail"
         {| View.title := cleaned fields "title";
            View.book :=
              Some (Populated
                      {| BookSchema._id := id;
                         BookSchema.title := cleaned fields "title";
                         BookSchema.author := Authors (db st) !! cleaned fields "author";
                         BookSchema.summary := cleaned fields "summary" |});
            View.book_list := None; View.authors := None; View.errors := None |}].
Proof.
  intros Hok Hold. serve_handler.
  unfold serve, stack_of. rewrite update_post_valid by auto using acceptable_cleaned.
  cbn [db calls]. rewrite Hold. cbn [Books Authors].
  rewrite lookup_insert_eq, <- app_assoc. reflexivity.
Qed.

Lemma updated_book_is_shown_example :
  calls (serve Book_detail "B1" ∅
           (serve Book_update_post "B1" (filled "Emma 2" "A1" "S") (initial sample_db))) =
    [Redirect "/catalog/book/B1";
     Render "book_detail"
       {| View.title := "Emma 2";
          View.book :=
            Some (Populated {| BookSchema._id := "B1"; BookSchema.title := "Emma 2";
                               BookSchema.author := Some austen;
                               BookSchema.summary := "S" |});
          View.book_list := None; View.authors := None; View.errors := None |}].
Proof.
  apply (updated_book_is_shown "B1" (filled "Emma 2" "A1" "S") ∅ (initial sample_db) emma).
  - repeat split; vm_compute; congruence.
  - reflexivity.
Defined.

(** X11. An Update submission never creates a Book: when none is stored
    under the path identifier, none is afterwards, whatever was submitted, and
    a Detail request for the identifier the submission redirected to is
    answered with the 404 error. *)
Theorem update_never_creates
    (id : string) (fields later : gmap string string) (st : State) :
  Books (db st) !! id = None →
  db (serve Book_update_post id fields st) = db st ∧
  ∃ answer,
    calls (serve Book_detail id later (serve Book_update_post id fields st)) =
      calls st ++ [answer; Next {| message := "Book not found"; status := Some 404 |}].
Proof.
  intros Hmissing. serve_handler. unfold serve, stack_of.
  destruct (isEmpty (expected_errors fields)) eqn:Herrs.
  - rewrite update_post_valid by done. cbn [db calls]. rewrite Hmissing.
    split; [reflexivity |]. rewrite Hmissing, <- app_assoc. by eexists.
  - rewrite update_post_invalid by done. cbn [db calls].
    split; [reflexivity |]. rewrite Hmissing, <- app_assoc. by eexists.
Qed.

Lemma update_never_creates_example :
  db (serve Book_update_post "B9" (filled "Emma" "A1" "S") (initial sample_db)) = sample_db.
Proof.
  apply (update_never_creates "B9" (filled "Emma" "A1" "S") ∅ (initial sample_db)).
  reflexivity.
Defined.

(** X12. After a Delete submission, no Book is stored under the identifier
    its body named: a Detail request and an update form request for that
    identifier are answered with the 404 error. *)
Theorem deleted_book_is_gone
    (id : string) (fields later : gmap string string) (st : State) :
  let st1 := serve Book_delete_post id fields st in
  Books (db st1) !! submitted fields "id" = None ∧
  calls (serve Book_detail (submitted fields "id") later st1) =
    calls st1 ++ [Next {| message := "Book not found"; status := Some 404 |}] ∧
  calls (serve Book_update_get (submitted fields "id") later st1) =
    calls st1 ++ [Next {| message := "Book not found"; status := Some 404 |}].
Proof.
  intros st1. subst st1. serve_handler.
  change (req_body (incoming id fields) "id") with (submitted fields "id").
  rewrite lookup_delete_eq. repeat split.
Qed.

(** X13. A Delete submission that names the Book an accepted Create
    submission has just stored puts the Book collection back as it was before
    the Create. *)
Theorem create_then_delete_restores
    (id id' : string) (fields body' : gmap string string) (st : State) :
  acceptable fields →
  Books (db st) !! ObjectId st (minted st) = None →
  submitted body' "id" = ObjectId st (minted st) →
  db (serve Book_delete_post id' body' (serve Book_create_post id fields st)) = db st.
Proof.
  intros Hok Hfresh Hbody. serve_handler.
  change (req_body (incoming id' body') "id") with (submitted body' "id").
  unfold serve, stack_of. rewrite create_post_valid by auto using acceptable_cleaned.
  cbn [db Books Authors]. rewrite Hbody, delete_insert_id by done. by destruct (db st).
Qed.

Lemma create_then_delete_restores_example :
  db (serve Book_delete_post "oid0" {["id" := "oid0"]}
        (serve Book_create_post "" (filled "Emma" "A1" "S") (initial sample_db))) =
  sample_db.
Proof.
  apply (create_then_delete_restores "" "oid0" (filled "Emma" "A1" "S")
           {["id" := "oid0"]} (initial sample_db)).
  - repeat split; vm_compute; congruence.
  - reflexivity.
  - reflexivity.
Defined.

(** X14. Deleting is idempotent, and harmless for an identifier that names
    nothing: a second Delete submission with the same body changes nothing
    more, and a Delete submission whose body names no stored Book leaves the
    store as it was. *)
Theorem delete_twice_or_nothing
    (id id' : string) (fields : gmap string string) (st : State) :
  db (serve Book_delete_post id' fields (serve Book_delete_post id fields st)) =
    db (serve Book_delete_post id fields st) ∧
  (Books (db st) !! submitted fields "id" = None →
   db (serve Book_delete_post id fields st) = db st).
Proof.
  serve_handler.
  change (req_body (incoming id fields) "id") with (submitted fields "id").
  change (req_body (incoming id' fields) "id") with (submitted fields "id").
  split.
  - by rewrite delete_delete_eq.
  - intros Hmissing. rewrite delete_id by done. by destruct (db st).
Qed.

Lemma delete_twice_or_nothing_example :
  db (serve Book_delete_post "B1" {["id" := "B9"]} (initial sample_db)) = sample_db.
Proof.
  destruct (delete_twice_or_nothing "B1" "B1" {["id" := "B9"]} (initial sample_db))
    as [_ Hnothing].
  apply Hnothing. reflexivity.
Defined.

(** X15. Updating is idempotent: the same Update submission served twice
    leaves the store as it is after the first. *)
Theorem update_twice_same_store
    (id : string) (fields : gmap string string) (st : State) :
  db (serve Book_update_post id fields (serve Book_update_post id fields st)) =
  db (serve Book_update_post id fields st).
Proof.
  unfold serve, stack_of.
  destruct (isEmpty (expected_errors fields)) eqn:Herrs.
  - rewrite !update_post_valid by done. cbn [db].
    destruct (Books (db st) !! id) as [old|] eqn:Hold; cbn [Books Authors].
    + by rewrite lookup_insert_eq, insert_insert_eq.
    + by rewrite Hold.
  - rewrite !update_post_invalid by done. reflexivity.
Qed.


(** X17. The number of stored Books changes by at most one per request: only
    an accepted Create submission can add a Book, only a Delete submission can
    remove one, and an Update submission never changes their number. *)
Theorem book_count_steps
    (e : Export) (id : string) (fields : gmap string string) (st : State) :
  let before := size (Books (db st)) in
  let after := size (Books (db (serve e id fields st))) in
  match e with
  | Book_create_post => after = before ∨ acceptable fields ∧ after = S before
  | Book_delete_post =>
      after = before ∧ Books (db st) !! submitted fields "id" = None ∨
      S after = before ∧ is_Some (Books (db st) !! submitted fields "id")
  | _ => after = before
  end.
Proof.
  intros before after. subst before after.
  destruct e; serve_handler; try reflexivity.
  - unfold serve, stack_of.
    destruct (isEmpty (expected_errors fields)) eqn:Herrs.
    + destruct (Books (db st) !! ObjectId st (minted st)) as [taken|] eqn:Hoid.
      * rewrite (create_post_duplicate _ _ _ taken) by done. by left.
      * rewrite create_post_valid by done. cbn [db Books]. right.
        split; [by apply isEmpty_acceptable | by apply map_size_insert_None].
    + rewrite create_post_invalid by done. by left.
  - change (req_body (incoming id fields) "id") with (submitted fields "id").
    destruct (Books (db st) !! submitted fields "id") as [book|] eqn:Hbook.
    + right. split; [|by eexists].
      rewrite <- (insert_delete_id (Books (db st)) _ _ Hbook) at 2.
      by rewrite map_size_insert_None by apply lookup_delete_eq.
    + left. split; [|reflexivity]. by rewrite delete_id.
  - unfold serve, stack_of.
    destruct (isEmpty (expected_errors fields)) eqn:Herrs.
    + rewrite update_post_valid by done. cbn [db].
      destruct (Books (db st) !! id) as [old|] eqn:Hold; cbn [Books]; [|reflexivity].
      by rewrite map_size_insert_Some.
    + rewrite update_post_invalid by done. reflexivity.
Qed.

Lemma submitted_filled title author summary :
  submitted (filled title author summary) "title" = title ∧
  submitted (filled title author summary) "author" = author ∧
  submitted (filled title author summary) "summary" = summary.
Proof.
  unfold submitted, filled. split; [|split]; reflexivity.
Qed.

Lemma escape_twice_iff (str : string) :
  validator.escape (validator.escape str) = validator.escape str ↔ plain str.
Proof.
  rewrite escape_fixed_iff. split; [apply plain_escape |].
  intros Hplain. by rewrite (escape_plain _ Hplain).
Qed.

(** What a submission stores is again a value the chains let through, and
    cleaning it escapes it once more. *)
Lemma cleaned_resubmitted key fields :
  acceptable fields →
  acceptable (resubmitted (described key fields)) ∧
  described key (resubmitted (described key fields)) =
    {| BookSchema._id := key;
       BookSchema.title := validator.escape (cleaned fields "title");
       BookSchema.author := validator.escape (cleaned fields "author");
       BookSchema.summary := validator.escape (cleaned fields "summary") |}.
Proof.
  intros (Ht & Ha & Hs). unfold resubmitted, described; cbn [BookSchema.title
    BookSchema.author BookSchema.summary].
  destruct (submitted_filled (cleaned fields "title") (cleaned fields "author")
              (cleaned fields "summary")) as (Et & Ea & Es).
  split.
  - unfold acceptable, blank. rewrite Et, Ea, Es. unfold cleaned.
    rewrite !trim_escape_trim. repeat split; by apply escape_nonempty.
  - f_equal.
    + unfold cleaned at 1. rewrite Et. apply f_equal, trim_escape_trim.
    + unfold cleaned at 1. rewrite Ea. apply f_equal, trim_escape_trim.
    + unfold cleaned at 1. rewrite Es. apply f_equal, trim_escape_trim.
Qed.



(** X18. Submitting the update form of a Book just created, with the values
    the form shows left unchanged, escapes the stored values a second time;
    the Book is the same afterwards only if the trimmed title, author and
    summary held no code unit that [escape] replaces. *)
Theorem resubmitting_escapes_again
    (id : string) (fields : gmap string string) (st : State) :
  acceptable fields →
  Books (db st) !! ObjectId st (minted st) = None →
  let oid := ObjectId st (minted st) in
  let created := described oid fields in
  let st1 := serve Book_create_post id fields st in
  let st2 := serve Book_update_post oid (resubmitted created) st1 in
  Books (db st1) !! oid = Some created ∧
  Books (db st2) !! oid =
    Some {| BookSchema._id := oid;
            BookSchema.title := validator.escape (BookSchema.title created);
            BookSchema.author := validator.escape (BookSchema.author created);
            BookSchema.summary := validator.escape (BookSchema.summary created) |} ∧
  (Books (db st2) !! oid = Some created ↔
   plain (validator.trim (submitted fields "title")) ∧
   plain (validator.trim (submitted fields "author")) ∧
   plain (validator.trim (submitted fields "summary"))).
Proof.
  intros Hok Hfresh oid created st1 st2. subst st2 st1 created oid.
  destruct (cleaned_resubmitted (ObjectId st (minted st)) fields Hok) as [Hok' Hagain].
  unfold serve, stack_of.
  rewrite update_post_valid by auto using acceptable_cleaned.
  rewrite create_post_valid by auto using acceptable_cleaned.
  cbn [db Books Authors]. rewrite !lookup_insert_eq. cbn [Books].
  rewrite lookup_insert_eq, Hagain.
  split; [reflexivity |]. split; [reflexivity |].
  unfold described, cleaned. rewrite <- !escape_twice_iff. split.
  - intros [= Et Ea Es]. auto.
  - intros (Et & Ea & Es). by rewrite Et, Ea, Es.
Qed.

Lemma resubmitting_escapes_again_example :
  Books (db (serve Book_update_post "oid0"
               (resubmitted (described "oid0" (filled "Q&A" "A1" "S")))
               (serve Book_create_post "" (filled "Q&A" "A1" "S") (initial sample_db))))
    !! "oid0"
  = Some {| BookSchema._id := "oid0"; BookSchema.title := "Q&amp;amp;A";
            BookSchema.author := "A1"; BookSchema.summary := "S" |}.
Proof.
  destruct (resubmitting_escapes_again "" (filled "Q&A" "A1" "S") (initial sample_db))
    as (_ & Hagain & _).
  - repeat split; vm_compute; congruence.
  - reflexivity.
  - exact Hagain.
Defined.

(** X19. After an accepted Create submission the book list holds the new
    Book, shown with its cleaned title and its author looked up, next to the
    Books it held before. *)
Theorem created_book_is_listed
    (id id' : string) (fields later : gmap string string) (st : State) :
  acceptable fields →
  Books (db st) !! ObjectId st (minted st) = None →
  let oid := ObjectId st (minted st) in
  ∃ listed : list ListedBook,
    calls (serve Book_list id' later (serve Book_create_post id fields st)) =
      calls st ++
        [Redirect ("/catalog/book/" +:+ oid);
         Render "book_list"
           {| View.title := "Book List"; View.book_list := Some listed;
              View.authors := None; View.book := None; View.errors := None |}] ∧
    listed ≡ₚ
      {| BookSchema._id := oid;
         BookSchema.title := cleaned fields "title";
         BookSchema.author := Authors (db st) !! cleaned fields "author";
         BookSchema.summary := () |} :: retrieve_book_list (db st) ∧
    StronglySorted
      (λ b1 b2, String.le (BookSchema.title b1) (BookSchema.title b2)) listed.
Proof.
  intros Hok Hfresh oid. subst oid. eexists. split; [|split].
  - serve_handler. unfold serve, stack_of.
    rewrite create_post_valid by auto using acceptable_cleaned.
    cbn [db calls]. rewrite <- app_assoc. reflexivity.
  - rewrite !retrieve_book_list_all. unfold all_books. cbn [Books].
    rewrite map_to_list_insert by done. reflexivity.
  - apply retrieve_book_list_sorted.
Qed.

Lemma created_book_is_listed_example :
  ∃ listed : list ListedBook,
    listed ≡ₚ
      {| BookSchema._id := "oid0"; BookSchema.title := "Emma";
         BookSchema.author := None; BookSchema.summary := () |}
      :: retrieve_book_list empty_db.
Proof.
  destruct (created_book_is_listed "" "" (filled "Emma" "A9" "S") ∅ (initial empty_db))
    as (listed & _ & Hlisted & _).
  - repeat split; vm_compute; congruence.
  - reflexivity.
  - exists listed. exact Hlisted.
Defined.

Lemma keyed_ids (l : list (string * StoredBook)) :
  Forall (λ kb, BookSchema._id kb.2 = kb.1) l →
  BookSchema._id <$> l.*2 = l.*1.
Proof. induction 1 as [|[k b] l Hkb _ IH]; [reflexivity |]. simpl in *. by f_equal. Qed.

Lemma listed_ids (d : DB) :
  keyed_by_id d →
  BookSchema._id <$> retrieve_book_list d ≡ₚ (map_to_list (Books d)).*1.
Proof.
  intros Hkeyed. rewrite retrieve_book_list_all. unfold all_books.
  rewrite <- list_fmap_compose.
  rewrite <- (keyed_ids (map_to_list (Books d))).
  - reflexivity.
  - apply map_Forall_to_list in Hkeyed.
    eapply Forall_impl; [exact Hkeyed |]. by intros [k b].
Qed.

(** X20. When every Book is stored under its own identifier, the book list
    shows each stored identifier exactly once and no other. *)
Theorem listed_identifiers (req : Request) (st : State) :
  keyed_by_id (db st) →
  ∃ listed : list ListedBook,
    calls (book_list req st).2 =
      calls st ++
        [Render "book_list"
           {| View.title := "Book List"; View.book_list := Some listed;
              View.authors := None; View.book := None; View.errors := None |}] ∧
    NoDup (BookSchema._id <$> listed) ∧
    ∀ key, key ∈ (BookSchema._id <$> listed) ↔ is_Some (Books (db st) !! key).
Proof.
  intros Hkeyed. exists (retrieve_book_list (db st)).
  rewrite book_list_run. cbn [calls]. split; [reflexivity |].
  pose proof (listed_ids (db st) Hkeyed) as Hids. split.
  - rewrite Hids. apply NoDup_fst_map_to_list.
  - intros key. rewrite Hids, list_elem_of_fmap. split.
    + intros ([k b] & -> & Hin). apply elem_of_map_to_list in Hin. by eexists.
    + intros [b Hb]. exists (key, b). split; [reflexivity |].
      by apply elem_of_map_to_list.
Qed.

Lemma listed_identifiers_example :
  ∃ listed : list ListedBook,
    calls (book_list (incoming "" ∅) (initial sample_db)).2 =
      [Render "book_list"
         {| View.title := "Book List"; View.book_list := Some listed;
            View.authors := None; View.book := None; View.errors := None |}] ∧
    NoDup (BookSchema._id <$> listed).
Proof.
  destruct (listed_identifiers (incoming "" ∅) (initial sample_db))
    as (listed & Hcalls & Hnodup & _).
  - unfold keyed_by_id. apply (bool_decide_unpack _). vm_compute. exact I.
  - exists listed. exact (conj Hcalls Hnodup).
Defined.
